(** * The REST gateway of xo-server ([/rest/v0])

    A shallow embedding of the express router of the REST API: the access
    gate, the [collection] and [object] path parameters, the list, get,
    patch, delete, import and export routes, and [sendObjects]. *)

From Stdlib Require Import ZArith Ascii.
From stdpp Require Import base option list strings gmap pretty.

Local Set Warnings "-register-all".

(** ** Strings *)

Definition lower_ascii (c : ascii) : ascii :=
  let n := nat_of_ascii c in
  if (65 <=? n)%nat && (n <=? 90)%nat then ascii_of_nat (n + 32) else c.

(** [toLocaleLowerCase], and the folding of a case-insensitive route
    pattern, on the ASCII letters. *)
Fixpoint lower (s : string) : string :=
  match s with
  | EmptyString => EmptyString
  | String c r => String (lower_ascii c) (lower r)
  end.

(** [s.split(sep)] for a one-character separator: [''.split(',')] is
    [['']]. *)
Fixpoint split (sep : ascii) (s : string) : list string :=
  match s with
  | EmptyString => [EmptyString]
  | String c r =>
      if Ascii.eqb c sep then EmptyString :: split sep r
      else match split sep r with
           | [] => [String c EmptyString]
           | w :: ws => String c w :: ws
           end
  end.

(** ** JavaScript values *)

Inductive jsval :=
  | JUndefined
  | JNull
  | JBool (b : bool)
  | JNum (n : Z)
  | JStr (s : string)
  | JArr (l : list jsval)
  | JObj (o : gmap string jsval)
  | JFun (src : string).

(** A JavaScript object used as a record of own properties. *)
Abbreviation object := (gmap string jsval).

(** Property read [o.k]: a missing property reads as [undefined]. *)
Definition prop (o : object) (k : string) : jsval := default JUndefined (o !! k).

(** String conversion, as applied by ['/' + v].  Numbers are the integers;
    a function converts to its source text. *)
Fixpoint to_str (v : jsval) : string :=
  match v with
  | JUndefined => "undefined"
  | JNull => "null"
  | JBool true => "true"
  | JBool false => "false"
  | JNum n => pretty n
  | JStr s => s
  | JArr l =>
      String.concat ","
        (map (λ x, match x with JUndefined | JNull => "" | _ => to_str x end) l)
  | JObj _ => "[object Object]"
  | JFun src => src
  end.

(** A number as [Number(text)] gives it for a [limit]. *)
Inductive jsnumber := NaN | Int (n : Z).

(** ** Errors, promises and completions *)

Inductive exn :=
  | InvalidCredentials
  | NoSuchObject (id : string) (type : option string)
  | TypeError (msg : string)
  | Error (msg : string).

(** Modelled from the spec: [invalidCredentials.is] of
    xo-common/api-errors.js; it recognises the invalid-credentials failure
    of authentication. *)
Definition invalidCredentials_is (e : exn) : bool :=
  match e with InvalidCredentials => true | _ => false end.

(** Modelled from the spec: [noSuchObject.is(error, { id, type })] of
    xo-common/api-errors.js; it recognises the backend's "no such object"
    report for that id/type pair. *)
Definition noSuchObject_is (e : exn) (id : string) (type : option string) : bool :=
  match e with
  | NoSuchObject i t => bool_decide (i = id) && bool_decide (t = type)
  | _ => false
  end.

(** What a synchronous call does: return or throw. *)
Inductive sync (A : Type) :=
  | Returns (a : A)
  | Throws (e : exn).
Arguments Returns {A} a.
Arguments Throws {A} e.

(** The fate of a promise.  [Pending] is a promise that is not settled
    when it is looked at, and that nothing in the handler settles. *)
Inductive promise (A : Type) :=
  | Fulfilled (a : A)
  | Rejected (e : exn)
  | Pending.
Arguments Fulfilled {A} a.
Arguments Rejected {A} e.
Arguments Pending {A}.

(** How a function body ends: normally, by an exception, or suspended at
    an [await] that never resumes. *)
Inductive completion (A : Type) :=
  | Normal (a : A)
  | Throw (e : exn)
  | Suspended.
Arguments Normal {A} a.
Arguments Throw {A} e.
Arguments Suspended {A}.

(** ** The backend *)

Record user := { permission : string }.

(** The response stream of a backend transfer: its declared envelope, the
    chunks it delivers, and the error that cuts it short, if any. *)
Record stream := {
  statusCode : Z;
  statusMessage : option string;
  headers : gmap string string;
  chunks : list string;
  failure : option exn;
}.

(** Modelled from the spec: [VDI_FORMAT_RAW] and [VDI_FORMAT_VHD] of
    @xen-orchestra/xapi, the raw and the structured container format of an
    import. *)
Inductive vdi_format := VDI_FORMAT_RAW | VDI_FORMAT_VHD.

(** The handle [app.getXapiObject] returns: the methods the routes call. *)
Record xapiObject := {
  set_ : string → jsval → promise unit;
  _destroy : promise unit;
  _exportContent : string → promise stream;
  _export : option string → promise stream;
  _importVdi : jsnumber → vdi_format → option string → option string → promise string;
  _getField : string → string → string → promise string;
}.

(** The application ([app]) and the two library functions whose results
    depend on text: [CM.parse(text).createPredicate()] and [Number]. *)
Record App := {
  authenticateUser : option string → promise user;
  getObject : string → option string → sync object;
  getXapiObject : object → sync xapiObject;
  getObjects : (object → bool) → option jsnumber → promise (list object);
  CM_parse : string → sync (object → bool);
  Number : string → jsnumber;
}.

(** ** Requests and the trace of a request *)

(** The methods of the routes, and [PUT] for the methods that have no
    route.  [HEAD] and [OPTIONS], which express answers on its own account,
    are left out. *)
Inductive method := GET | POST | PATCH | DELETE | PUT.

(** [path] holds the segments of the path below the mount point, free of
    percent-escapes, so that a parameter is the segment itself: the path
    text is ["/" +:+ String.concat "/" path], and [[""]] is ["/"].  [body]
    is what [json()] leaves in [req.body], or the error it raises. *)
Record request := {
  method_ : method;
  path : list string;
  query : gmap string string;
  cookies : gmap string string;
  req_headers : gmap string string;
  body : sync object;
}.

(** A piece of a response body: raw bytes, or the JSON text of a value. *)
Inductive chunk :=
  | Bytes (data : string)
  | JsonText (v : jsval).

Inductive event :=
  | CallAuthenticate (token : option string)
  | CallGetObject (id : string) (type : option string)
  | CallGetObjects (filter : object → bool) (limit : option jsnumber)
  | CallSet (key : string) (value : jsval)
  | CallDestroy
  | CallExportContent (format : string)
  | CallExport (compress : option string)
  | CallImportVdi (length : jsnumber) (format : vdi_format)
      (name_label name_description : option string)
  | CallGetField (type ref field : string)
  | ResSet (header value : string)
  | ResSendStatus (code : Z)
  | ResJson (value : jsval)
  | ResWriteHead (code : Z) (message : string) (hdrs : gmap string string)
  | ResWrite (c : chunk)
  | ResEnd (text : option string).

(** A handler body: the events it causes, in order, and how it ends. *)
Definition handler (A : Type) : Type := list event * completion A.

Global Instance handler_ret : MRet handler := λ A a, ([], Normal a).

Global Instance handler_bind : MBind handler := λ A B f m,
  match m.2 with
  | Normal a => (m.1 ++ (f a).1, (f a).2)
  | Throw e => (m.1, Throw e)
  | Suspended => (m.1, Suspended)
  end.

Definition emit (ev : event) : handler unit := ([ev], Normal tt).

Definition throw {A} (e : exn) : handler A := ([], Throw e).

Definition call {A} (r : sync A) : handler A :=
  match r with
  | Returns a => ([], Normal a)
  | Throws e => ([], Throw e)
  end.

(** [await p] for a promise [p]. *)
Definition await {A} (p : promise A) : handler A :=
  match p with
  | Fulfilled a => ([], Normal a)
  | Rejected e => ([], Throw e)
  | Pending => ([], Suspended)
  end.

(** [await v] for a value [v] that has no [then] method, such as an
    Array: the value itself, whatever it holds. *)
Definition await_value {A} (v : A) : handler A := ([], Normal v).

(** What a middleware leaves to the router: it answered ([Done]), called
    [next()], [next('route')] or [next(error)], or it never came back. *)
Inductive disposition :=
  | Done
  | Next
  | NextRoute
  | NextError (e : exn)
  | Stalled.

(** [wrap(middleware)], and the [try]/[catch] express puts around a plain
    handler: an exception becomes [next(error)]. *)
Definition wrap (m : handler unit) : list event * disposition :=
  match m.2 with
  | Normal _ => (m.1, Done)
  | Throw e => (m.1, NextError e)
  | Suspended => (m.1, Stalled)
  end.

(** ** [sendObjects] *)

Definition baseUrl : string := "/rest/v0".

(** [req.path]: the text of the path below the mount point. *)
Definition path_text (segments : list string) : string :=
  "/" +:+ String.concat "/" segments.

Definition makeUrl (basePath : string) (o : object) : string :=
  basePath +:+ "/" +:+ to_str (prop o "id").

(** lodash's [pick(object, fields)] on property names: each name that the
    object has is copied, in the order of [fields]. *)
Definition pick (o : object) (fields : list string) : object :=
  foldl (λ result k,
           match o !! k with
           | Some v => <[k:=v]> result
           | None => result
           end) ∅ fields.

(** The element [sendObjects] makes of one object when [fields] is given:
    [object = pick(object, fields); object.href = url]. *)
Definition project (basePath : string) (fields : list string) (o : object) : object :=
  <["href" := JStr (makeUrl basePath o)]> (pick o fields).

(** The [results] array of [sendObjects]. *)
Definition results (basePath : string) (fields : option string)
    (objects : list object) : list jsval :=
  match fields with
  | Some fields =>
      let fields := split "," fields in
      map (λ o, JObj (project basePath fields o)) objects
  | None => map (λ o, JStr (makeUrl basePath o)) objects
  end.

Definition newline : string := String "010" EmptyString.

(** Modelled from the spec: [createNdJsonStream] of
    ../_createNdJsonStream.mjs: each element is serialized independently
    and written as its own line. *)
Definition createNdJsonStream (values : list jsval) : list chunk :=
  flat_map (λ v, [JsonText v; Bytes newline]) values.

(** [pipeline(source, res, callback)] for a source that does not fail:
    every chunk is written, then the response ends. *)
Definition pipe (source : list chunk) : handler unit :=
  (map ResWrite source ++ [ResEnd None], Normal tt).

Definition sendObjects (objects : list object) (req : request) : handler unit :=
  let basePath := baseUrl +:+ path_text (path req) in
  let results := results basePath (query req !! "fields") objects in
  match query req !! "ndjson" with
  | Some _ =>
      emit (ResSet "Content-Type" "application/x-ndjson") ;;
      pipe (createNdJsonStream results)
  | None => emit (ResJson (JArr results))
  end.

(** ** The user filter *)

(** What [handleOptionalUserFilter] hands to [every]: [undefined], the
    falsy text itself, or a predicate. *)
Inductive filter_arg :=
  | Absent
  | NotAFunction (v : jsval)
  | Predicate (p : object → bool).

(** [filter && CM.parse(filter).createPredicate()]: [undefined] and the
    empty text are falsy and are the result as they are. *)
Definition handleOptionalUserFilter (app : App) (filter : option string)
    : handler filter_arg :=
  match filter with
  | None => mret Absent
  | Some EmptyString => mret (NotAFunction (JStr EmptyString))
  | Some text => p ← call (CM_parse app text); mret (Predicate p)
  end.

(** Modelled from the spec: [every] of @vates/predicates: an absent
    predicate is always true and the predicates are combined with logical
    AND.  The spec gives no meaning to an argument that is defined and not
    a function; it is refused here, so that no predicate is made of it. *)
Fixpoint every (predicates : list filter_arg) : sync (object → bool) :=
  match predicates with
  | [] => Returns (λ _, true)
  | Absent :: rest => every rest
  | NotAFunction _ :: _ => Throws (TypeError "not a valid predicate")
  | Predicate p :: rest =>
      match every rest with
      | Returns q => Returns (λ o, p o && q o)
      | Throws e => Throws e
      end
  end.

(** Modelled from the spec: [ifDef] of @xen-orchestra/defined: the function
    is applied to a value that is given, and an absent limit stays absent
    (unbounded). *)
Definition ifDef {A B} (value : option A) (fn : A → B) : option B :=
  fn <$> value.

(** ** The access gate *)

(** [cookies.authenticationToken ?? cookies.token] *)
Definition token_of (req : request) : option string :=
  match cookies req !! "authenticationToken" with
  | Some t => Some t
  | None => cookies req !! "token"
  end.

Definition authenticate (app : App) (req : request) : list event * disposition :=
  let token := token_of req in
  match authenticateUser app token with
  | Fulfilled user =>
      if String.eqb (permission user) "admin"
      then ([CallAuthenticate token], Next)
      else ([CallAuthenticate token; ResSendStatus 401], Done)
  | Rejected error =>
      if invalidCredentials_is error
      then ([CallAuthenticate token; ResSendStatus 401], Done)
      else ([CallAuthenticate token], NextError error)
  | Pending => ([CallAuthenticate token], Stalled)
  end.

(** ** Collections and the path parameters *)

Record collection := {
  coll_id : string;
  isCorrectType : object → bool;
  coll_type : string;
}.

Definition types : list string :=
  ["host"; "network"; "pool"; "SR"; "VBD"; "VDI-snapshot"; "VDI"; "VIF";
   "VM-snapshot"; "VM-template"; "VM"].

(** [v === text] *)
Definition strict_eq_str (v : jsval) (text : string) : bool :=
  match v with
  | JStr t => String.eqb t text
  | _ => false
  end.

Definition collection_entry (type : string) : string * collection :=
  let id := lower type +:+ "s" in
  (id, {| coll_id := id;
          isCorrectType := λ o, strict_eq_str (prop o "type") type;
          coll_type := type |}).

Definition collection_entries : list (string * collection) :=
  map collection_entry types.

(** [Object.fromEntries]: a later entry replaces an earlier one. *)
Definition collections : gmap string collection :=
  foldl (λ m entry, <[entry.1 := entry.2]> m) ∅ collection_entries.

(** A descriptor seen as the object it is, for [sendObjects]. *)
Definition collection_object (c : collection) : object :=
  <["type" := JStr (coll_type c)]>
    (<["isCorrectType" := JFun "_ => _.type === type"]>
       (<["id" := JStr (coll_id c)]> ∅)).

(** The property names that an ordinary object, such as the one
    [Object.fromEntries] returns, inherits from [Object.prototype]. *)
Definition Object_prototype : list string :=
  ["constructor"; "__defineGetter__"; "__defineSetter__"; "hasOwnProperty";
   "__lookupGetter__"; "__lookupSetter__"; "isPrototypeOf";
   "propertyIsEnumerable"; "toString"; "valueOf"; "__proto__"; "toLocaleString"].

(** What [collections[id]] can be when it is not [undefined]: a descriptor
    of the table, or the value of an inherited property, which has no
    [isCorrectType] and no [type]. *)
Inductive collection_value :=
  | Descriptor (c : collection)
  | Inherited (name : string).

(** [collections[id]] *)
Definition collections_get (id : string) : option collection_value :=
  match collections !! id with
  | Some c => Some (Descriptor c)
  | None =>
      if bool_decide (id ∈ Object_prototype) then Some (Inherited id) else None
  end.

(** [req.collection.type] *)
Definition type_of (v : collection_value) : option string :=
  match v with
  | Descriptor c => Some (coll_type c)
  | Inherited _ => None
  end.

(** [req.collection.isCorrectType], as an argument of [every] *)
Definition isCorrectType_of (v : collection_value) : filter_arg :=
  match v with
  | Descriptor c => Predicate (isCorrectType c)
  | Inherited _ => Absent
  end.

(** What the parameter callbacks leave on the request. *)
Record context := {
  collection_ : option collection_value;
  xoObject : option object;
  xapiObject_ : option xapiObject;
}.

Definition no_context : context :=
  {| collection_ := None; xoObject := None; xapiObject_ := None |}.

Definition param_collection (ctx : context) (id : string)
    : list event * (context * disposition) :=
  match collections_get id with
  | None => ([], (ctx, NextRoute))
  | Some collection =>
      ([], ({| collection_ := Some collection; xoObject := xoObject ctx;
               xapiObject_ := xapiObject_ ctx |}, Next))
  end.

(** The [catch] of the [object] parameter. *)
Definition object_error (id : string) (type : option string) (error : exn)
    : disposition :=
  if noSuchObject_is error id type then NextRoute else NextError error.

(** [const { type } = req.collection] stands before the [try]: without a
    resolved collection it throws, and express passes the exception on. *)
Definition param_object (app : App) (ctx : context) (id : string)
    : list event * (context * disposition) :=
  match collection_ ctx with
  | None => ([], (ctx, NextError (TypeError "req.collection is undefined")))
  | Some collection =>
      let type := type_of collection in
      match getObject app id type with
      | Throws error => ([CallGetObject id type], (ctx, object_error id type error))
      | Returns o =>
          let ctx := {| collection_ := collection_ ctx; xoObject := Some o;
                        xapiObject_ := xapiObject_ ctx |} in
          match getXapiObject app o with
          | Throws error =>
              ([CallGetObject id type], (ctx, object_error id type error))
          | Returns x =>
              ([CallGetObject id type],
               ({| collection_ := collection_ ctx; xoObject := xoObject ctx;
                   xapiObject_ := Some x |}, Next))
          end
      end
  end.

(** ** The route handlers *)

Abbreviation params := (list (string * string)).

(** [req.params[name]] *)
Definition param (ps : params) (name : string) : option string :=
  snd <$> List.find (λ kv, String.eqb kv.1 name) ps.

(** Reading a property or calling a method of [undefined] throws. *)
Definition defined {A} (what : string) (v : option A) : handler A :=
  match v with
  | Some a => mret a
  | None => throw (TypeError (what +:+ " is undefined"))
  end.

(** [GET /] *)
Definition getRoot (req : request) : handler unit :=
  sendObjects (map (λ entry, collection_object entry.2) collection_entries) req.

(** [GET /:collection] *)
Definition getCollection (app : App) (req : request) (ctx : context) : handler unit :=
  collection ← defined "req.collection" (collection_ ctx);
  userFilter ← handleOptionalUserFilter app (query req !! "filter");
  filter ← call (every [isCorrectType_of collection; userFilter]);
  let limit := ifDef (query req !! "limit") (Number app) in
  emit (CallGetObjects filter limit) ;;
  objects ← await (getObjects app filter limit);
  sendObjects objects req.

(** [GET /:collection/:object] *)
Definition getOne (ctx : context) : handler unit :=
  emit (ResJson (match xoObject ctx with
                 | Some o => JObj o
                 | None => JUndefined
                 end)).

(** The loop of the [PATCH] handler over the two keys: the promises of the
    calls made so far are pushed on [promises]. *)
Fixpoint patch_each (obj : option xapiObject) (body : object) (keys : list string)
    (promises : list (promise unit)) : handler (list (promise unit)) :=
  match keys with
  | [] => mret promises
  | key :: keys =>
      match prop body key with
      | JUndefined => patch_each obj body keys promises
      | value =>
          x ← defined "req.xapiObject" obj;
          emit (CallSet key value) ;;
          patch_each obj body keys (promises ++ [set_ x key value])
      end
  end.

(** [PATCH /:collection/:object], behind [json()]: the handler awaits the
    Array [promises] itself. *)
Definition patchOne (req : request) (ctx : context) : handler unit :=
  body ← call (body req);
  promises ← patch_each (xapiObject_ ctx) body ["name_description"; "name_label"] [];
  await_value promises ;;
  emit (ResSendStatus 200).

(** [POST /srs/:object/vdis]: [req.length] is [+req.headers['content-length']],
    and the request goes to [$importVdi] with it. *)
Definition postVdi (app : App) (req : request) (ctx : context) : handler unit :=
  sr ← defined "req.xapiObject" (xapiObject_ ctx);
  let length := from_option (Number app) NaN (req_headers req !! "content-length") in
  let format := match query req !! "raw" with
                | Some _ => VDI_FORMAT_RAW
                | None => VDI_FORMAT_VHD
                end in
  let name_label := query req !! "name_label" in
  let name_description := query req !! "name_description" in
  emit (CallImportVdi length format name_label name_description) ;;
  vdiRef ← await (_importVdi sr length format name_label name_description);
  emit (CallGetField "VDI" vdiRef "uuid") ;;
  uuid ← await (_getField sr "VDI" vdiRef "uuid");
  emit (ResEnd (Some uuid)).

(** [DELETE /:collection(...)/:object] *)
Definition deleteOne (ctx : context) : handler unit :=
  x ← defined "req.xapiObject" (xapiObject_ ctx);
  emit CallDestroy ;;
  await (_destroy x) ;;
  emit (ResSendStatus 200).

(** [await fromCallback(pipeline, stream, res)]: the chunks of the stream
    go to the response as they are; a stream that fails leaves the
    response unfinished and the error is thrown. *)
Definition pipeline (s : stream) : handler unit :=
  match failure s with
  | None => (map (λ c, ResWrite (Bytes c)) (chunks s) ++ [ResEnd None], Normal tt)
  | Some error => (map (λ c, ResWrite (Bytes c)) (chunks s), Throw error)
  end.

(** The three statements the two export handlers share. *)
Definition sendStream (s : stream) : handler unit :=
  let hdrs := <["content-disposition" := "attachment"]> (headers s) in
  emit (ResWriteHead (statusCode s) (default EmptyString (statusMessage s)) hdrs) ;;
  pipeline s.

(** [GET /:collection(vdis|vdi-snapshots)/:object.:format(vhd|raw)] *)
Definition exportVdi (ctx : context) (ps : params) : handler unit :=
  x ← defined "req.xapiObject" (xapiObject_ ctx);
  format ← defined "req.params.format" (param ps "format");
  emit (CallExportContent format) ;;
  s ← await (_exportContent x format);
  sendStream s.

(** [GET /:collection(vms|vm-snapshots|vm-templates)/:object.xva] *)
Definition exportVm (req : request) (ctx : context) : handler unit :=
  x ← defined "req.xapiObject" (xapiObject_ ctx);
  let compress := query req !! "compress" in
  emit (CallExport compress) ;;
  s ← await (_export x compress);
  sendStream s.

(** ** The router *)

Definition method_eqb (a b : method) : bool :=
  match a, b with
  | GET, GET | POST, POST | PATCH, PATCH | DELETE, DELETE | PUT, PUT => true
  | _, _ => false
  end.

Definition nonempty (s : string) : bool := negb (String.eqb s EmptyString).

(** A segment against the alternatives of a pattern; routes are matched
    without regard to case. *)
Definition one_of (alternatives : list string) (s : string) : bool :=
  existsb (String.eqb (lower s)) alternatives.

(** A segment [object.ext] with an extension of [n] characters and an
    [object] that is not empty. *)
Definition split_ext (n : nat) (s : string) : option (string * string) :=
  let len := String.length s in
  if (n + 2 <=? len)%nat && String.eqb (String.substring (len - n - 1) 1 s) "."
  then Some (String.substring 0 (len - n - 1) s, String.substring (len - n) n s)
  else None.

(** ['/'] *)
Definition match_root (segments : list string) : option params :=
  match segments with
  | [EmptyString] => Some []
  | _ => None
  end.

(** ['/:collection'] *)
Definition match_collection (segments : list string) : option params :=
  match segments with
  | [c] => if nonempty c then Some [("collection", c)] else None
  | _ => None
  end.

(** ['/:collection/:object'], and ['/:collection(a|b|...)/:object'] when
    the alternatives are given. *)
Definition match_collection_object (alternatives : option (list string))
    (segments : list string) : option params :=
  match segments with
  | [c; o] =>
      if nonempty c && nonempty o && from_option (λ alts, one_of alts c) true alternatives
      then Some [("collection", c); ("object", o)]
      else None
  | _ => None
  end.

(** ['/srs/:object/vdis'] *)
Definition match_srs_vdis (segments : list string) : option params :=
  match segments with
  | [a; o; b] =>
      if one_of ["srs"] a && nonempty o && one_of ["vdis"] b
      then Some [("object", o)]
      else None
  | _ => None
  end.

(** ['/:collection(vdis|vdi-snapshots)/:object.:format(vhd|raw)'] *)
Definition match_export_vdi (segments : list string) : option params :=
  match segments with
  | [c; s] =>
      match split_ext 3 s with
      | Some (o, format) =>
          if one_of ["vdis"; "vdi-snapshots"] c && one_of ["vhd"; "raw"] format
          then Some [("collection", c); ("object", o); ("format", format)]
          else None
      | None => None
      end
  | _ => None
  end.

(** ['/:collection(vms|vm-snapshots|vm-templates)/:object.xva'] *)
Definition match_export_vm (segments : list string) : option params :=
  match segments with
  | [c; s] =>
      match split_ext 3 s with
      | Some (o, ext) =>
          if one_of ["vms"; "vm-snapshots"; "vm-templates"] c && one_of ["xva"] ext
          then Some [("collection", c); ("object", o)]
          else None
      | None => None
      end
  | _ => None
  end.

Record layer := {
  layer_method : method;
  layer_match : list string → option params;
  layer_handle : request → context → params → handler unit;
}.

Definition destroyable : list string :=
  ["vdis"; "vdi-snapshots"; "vms"; "vm-snapshots"; "vm-templates"].

Definition rootLayer : layer :=
  {| layer_method := GET; layer_match := match_root;
     layer_handle := λ req _ _, getRoot req |}.

Definition listLayer (app : App) : layer :=
  {| layer_method := GET; layer_match := match_collection;
     layer_handle := λ req ctx _, getCollection app req ctx |}.

Definition getLayer : layer :=
  {| layer_method := GET; layer_match := match_collection_object None;
     layer_handle := λ _ ctx _, getOne ctx |}.

Definition patchLayer : layer :=
  {| layer_method := PATCH; layer_match := match_collection_object None;
     layer_handle := λ req ctx _, patchOne req ctx |}.

Definition importLayer (app : App) : layer :=
  {| layer_method := POST; layer_match := match_srs_vdis;
     layer_handle := λ req ctx _, postVdi app req ctx |}.

Definition deleteLayer : layer :=
  {| layer_method := DELETE;
     layer_match := match_collection_object (Some destroyable);
     layer_handle := λ _ ctx _, deleteOne ctx |}.

Definition exportVdiLayer : layer :=
  {| layer_method := GET; layer_match := match_export_vdi;
     layer_handle := λ _ ctx ps, exportVdi ctx ps |}.

Definition exportVmLayer : layer :=
  {| layer_method := GET; layer_match := match_export_vm;
     layer_handle := λ req ctx _, exportVm req ctx |}.

(** The routes, in the order the constructor registers them. *)
Definition routes (app : App) : list layer :=
  [rootLayer; listLayer app; getLayer; patchLayer; importLayer app; deleteLayer;
   exportVdiLayer; exportVmLayer].

(** The parameter callbacks of a matched route, in the order of its
    parameters; a callback that does not call [next()] ends them. *)
Fixpoint process_params (app : App) (ps : params) (ctx : context)
    : list event * (context * disposition) :=
  match ps with
  | [] => ([], (ctx, Next))
  | (name, value) :: rest =>
      let r := if String.eqb name "collection" then param_collection ctx value
               else if String.eqb name "object" then param_object app ctx value
               else ([], (ctx, Next)) in
      match r.2.2 with
      | Next =>
          let r' := process_params app rest r.2.1 in
          (r.1 ++ r'.1, r'.2)
      | _ => r
      end
  end.

(** The router over its stack: the first route that matches and whose
    parameters resolve handles the request; [next('route')] moves on to
    the routes after it; past the last one the request leaves the router
    ([Next]). *)
Fixpoint handle (app : App) (stack : list layer) (req : request) (ctx : context)
    : list event * disposition :=
  match stack with
  | [] => ([], Next)
  | l :: stack =>
      if method_eqb (layer_method l) (method_ req) then
        match layer_match l (path req) with
        | None => handle app stack req ctx
        | Some ps =>
            let r := process_params app ps ctx in
            match r.2.2 with
            | Next =>
                let h := wrap (layer_handle l req r.2.1 ps) in
                (r.1 ++ h.1, h.2)
            | NextRoute =>
                let h := handle app stack req r.2.1 in
                (r.1 ++ h.1, h.2)
            | d => (r.1, d)
            end
        end
      else handle app stack req ctx
  end.

(** The whole sub-application mounted on [/rest/v0]: the access gate, then
    the routes. *)
Definition RestApi (app : App) (req : request) : list event * disposition :=
  let a := authenticate app req in
  match a.2 with
  | Next =>
      let h := handle app (routes app) req no_context in
      (a.1 ++ h.1, h.2)
  | d => (a.1, d)
  end.

(** ** Observations on a trace *)

(** The elements of a list response, in the order they are sent: those of
    the array given to [res.json], or the values written one per line. *)
Definition sent_elements (trace : list event) : list jsval :=
  flat_map (λ ev, match ev with
                  | ResJson (JArr l) => l
                  | ResWrite (JsonText v) => [v]
                  | _ => []
                  end) trace.

(** The status a trace commits the response to, if it sends one:
    [res.json] and [res.end] answer with the default status 200. *)
Definition status_of (ev : event) : option Z :=
  match ev with
  | ResSendStatus code => Some code
  | ResWriteHead code _ _ => Some code
  | ResJson _ | ResWrite _ | ResEnd _ => Some 200%Z
  | _ => None
  end.

Definition response_status (trace : list event) : option Z :=
  list_find (λ ev, is_Some (status_of ev)) trace ≫= λ found, status_of found.2.

(** The status the client sees when the application's error handler, which
    is not part of the router, answers [next(error)] with [generic error]. *)
Definition final_status (generic : exn → Z) (r : list event * disposition)
    : option Z :=
  match r.2 with
  | NextError error => Some (generic error)
  | _ => response_status r.1
  end.

(** ** A backend to run the routes on *)

(** Modelled from the spec: [app.getObjects({ filter, limit })] of a backend
    that holds the objects [store]: the objects that satisfy the filter,
    at most [limit] of them. *)
Definition store_getObjects (store : list object) (filter : object → bool)
    (limit : option jsnumber) : promise (list object) :=
  Fulfilled (match limit with
             | Some (Int n) => take (Z.to_nat n) (List.filter filter store)
             | _ => List.filter filter store
             end).

(** Modelled from the spec: [app.getObject(id, type)] of the same backend;
    it reports "no such object" for an id/type pair it does not hold, and
    looks at the id alone when no type is given. *)
Definition store_getObject (store : list object) (id : string) (type : option string)
    : sync object :=
  match List.find (λ o, strict_eq_str (prop o "id") id
                        && from_option (strict_eq_str (prop o "type")) true type)
          store with
  | Some o => Returns o
  | None => Throws (NoSuchObject id type)
  end.

Definition vm1 : object :=
  <["name_label" := JStr "web"]> (<["type" := JStr "VM"]> (<["id" := JStr "vm-1"]> ∅)).

Definition vdi1 : object :=
  <["href" := JStr "elsewhere"]> (<["type" := JStr "VDI"]> (<["id" := JStr "vdi-1"]> ∅)).

Definition host1 : object :=
  <["name_label" := JStr "web"]> (<["type" := JStr "host"]> (<["id" := JStr "host-1"]> ∅)).

Definition demo_store : list object := [vm1; vdi1; host1].

Definition demo_stream : stream :=
  {| statusCode := 206;
     statusMessage := None;
     headers := <["content-disposition" := "inline"]>
                  (<["content-type" := "application/octet-stream"]> ∅);
     chunks := ["ab"; "cd"];
     failure := None |}.

(** A handle whose setters all return the promise [setter]. *)
Definition demo_xapi (setter : promise unit) : xapiObject :=
  {| set_ := λ _ _, setter;
     _destroy := Fulfilled tt;
     _exportContent := λ _, Fulfilled demo_stream;
     _export := λ _, Fulfilled demo_stream;
     _importVdi := λ _ _ _ _, Fulfilled "OpaqueRef:1";
     _getField := λ _ _ _, Fulfilled "vdi-2" |}.

(** A backend over [demo_store]: the token [root] is an administrator,
    [guest] is not, any other token is refused; the lookup of the id
    [broken] fails for a reason of its own; the only filter text that
    does not parse is ["("], and any other text selects by name. *)
Definition demo_app (setter : promise unit) (listing : option exn) : App :=
  {| authenticateUser := λ token,
       match token with
       | Some "root" => Fulfilled {| permission := "admin" |}
       | Some "guest" => Fulfilled {| permission := "none" |}
       | _ => Rejected InvalidCredentials
       end;
     getObject := λ id type,
       if String.eqb id "broken" then Throws (Error "connection lost")
       else store_getObject demo_store id type;
     getXapiObject := λ _, Returns (demo_xapi setter);
     getObjects := λ filter limit,
       match listing with
       | Some error => Rejected error
       | None => store_getObjects demo_store filter limit
       end;
     CM_parse := λ text,
       if String.eqb text "(" then Throws (Error "parse error")
       else Returns (λ o, strict_eq_str (prop o "name_label") text);
     Number := λ _, NaN |}.

Definition demo_request (m : method) (segments : list string) (token : string)
    (q : gmap string string) (b : object) : request :=
  {| method_ := m; path := segments; query := q;
     cookies := <["token" := token]> ∅; req_headers := ∅; body := Returns b |}.

Definition listing_request (q : gmap string string) : request :=
  demo_request GET ["vdis"] "root" q ∅.

(** The claim on a malformed filter, in the words of the spec: a request
    whose filter text does not parse is answered with a client error, a
    status from 400 to 499. *)
Definition client_error (trace : list event) : Prop :=
  ∃ code, response_status trace = Some code ∧ (400 ≤ code < 500)%Z.

Definition parse_failure_is_client_error (app : App) (req : request) : Prop :=
  ∀ text e,
    query req !! "filter" = Some text →
    CM_parse app text = Throws e →
    client_error (RestApi app req).1.

Definition vms : collection := (collection_entry "VM").2.

Definition named_web (o : object) : bool := strict_eq_str (prop o "name_label") "web".

(** ** The RAM usage of the hosts ([HostsRamUsage.vue]) *)

(** A [Stat<HostStats>] as the component reads it: [stats] is [undefined]
    until the statistics of the host have been fetched. *)
Record Stat (HostStats : Type) := {
  stat_id : string;
  stat_name : string;
  stat_stats : option HostStats;
}.
Arguments stat_id {HostStats} _.
Arguments stat_name {HostStats} _.
Arguments stat_stats {HostStats} _.

(** What [parseRamUsage] returns. *)
Record RamUsage (number : Type) := {
  percentUsed : number;
  total : number;
  used : number;
}.
Arguments percentUsed {number} _.
Arguments total {number} _.
Arguments used {number} _.

(** [parseRamUsage] and [formatSize] of @/libs/utils, as they are given:
    the component only passes values through them. *)
Record Utils (HostStats number : Type) := {
  parseRamUsage : HostStats → RamUsage number;
  formatSize : number → string;
}.
Arguments parseRamUsage {HostStats number} _ _.
Arguments formatSize {HostStats number} _ _.

(** An entry of [data], as [UsageBar] takes it. *)
Record UsageItem (number : Type) := {
  item_id : string;
  item_label : string;
  item_value : number;
  badgeLabel : string;
}.
Arguments item_id {number} _.
Arguments item_label {number} _.
Arguments item_value {number} _.
Arguments badgeLabel {number} _.

(** The body of the [forEach] of [data]: a host without statistics is
    skipped, any other pushes its entry on [result]. *)
Definition pushStat {H N} (utils : Utils H N) (result : list (UsageItem N))
    (stat : Stat H) : list (UsageItem N) :=
  match stat_stats stat with
  | None => result
  | Some stats =>
      let usage := parseRamUsage utils stats in
      result ++ [{| item_id := stat_id stat;
                    item_label := stat_name stat;
                    item_value := percentUsed usage;
                    badgeLabel := formatSize utils (used usage) +:+ "/"
                                  +:+ formatSize utils (total usage) |}]
  end.

(** The computed [data]. *)
Definition data {H N} (utils : Utils H N) (stats : list (Stat H))
    : list (UsageItem N) :=
  foldl (pushStat utils) [] stats.

(** The getter of the computed [statFetched]: [previous] is what
    [statFetched.value] holds while the getter runs, the value of the
    evaluation before (falsy before the first). *)
Definition statFetched {H N} (utils : Utils H N) (previous : bool)
    (stats : list (Stat H)) : bool :=
  previous
  || ((0 <? length stats)%nat && (length stats =? length (data utils stats))%nat).

(** [statFetched] after its getter has run on each of [snapshots], the
    values of the injected [stats] at those evaluations, in turn. *)
Definition statFetched_after {H N} (utils : Utils H N)
    (snapshots : list (list (Stat H))) : bool :=
  foldl (statFetched utils) false snapshots.

(** The [data] attribute of [UsageBar]: [statFetched ? data : undefined]. *)
Definition usageBarData {H N} (utils : Utils H N) (previous : bool)
    (stats : list (Stat H)) : option (list (UsageItem N)) :=
  if statFetched utils previous stats then Some (data utils stats) else None.

(** ** More to run the routes on *)

(** The backend of [demo_app] when the authentication service fails for a
    reason other than the credentials. *)
Definition demo_app_auth_down : App :=
  {| authenticateUser := λ _, Rejected (Error "ldap unreachable");
     getObject := getObject (demo_app Pending None);
     getXapiObject := getXapiObject (demo_app Pending None);
     getObjects := getObjects (demo_app Pending None);
     CM_parse := CM_parse (demo_app Pending None);
     Number := Number (demo_app Pending None) |}.

(** A handle whose setters succeed and whose other calls are all
    rejected with [e]. *)
Definition demo_xapi_failing (e : exn) : xapiObject :=
  {| set_ := λ _ _, Fulfilled tt;
     _destroy := Rejected e;
     _exportContent := λ _, Rejected e;
     _export := λ _, Rejected e;
     _importVdi := λ _ _ _ _, Rejected e;
     _getField := λ _ _ _, Rejected e |}.

Definition demo_utils : Utils (nat * nat) nat :=
  {| parseRamUsage := λ s, {| percentUsed := 100 * s.1 / s.2; total := s.2; used := s.1 |};
     formatSize := λ n, pretty n |}.

Definition demo_stats : list (Stat (nat * nat)) :=
  [{| stat_id := "h1"; stat_name := "alpha"; stat_stats := Some (2, 8) |};
   {| stat_id := "h2"; stat_name := "beta"; stat_stats := None |};
   {| stat_id := "h3"; stat_name := "gamma"; stat_stats := Some (4, 4) |}].


(** ** Tactics *)

(** Every event of a short trace is one of those listed. *)
Ltac gate_only H :=
  repeat (apply elem_of_cons in H as [->|H]; [done|]);
  apply elem_of_nil in H.

(** Reduces the method test and the projections of the named routes. *)
Ltac on_routes :=
  cbn [method_eqb layer_method layer_match layer_handle rootLayer listLayer
         getLayer patchLayer importLayer deleteLayer exportVdiLayer exportVmLayer].

(** * Properties *)

Example split_fields : split "," "a,b,,c" = ["a"; "b"; ""; "c"].
Proof. reflexivity. Qed.

Example lower_sr : lower "VDI-snapshot" = "vdi-snapshot".
Proof. reflexivity. Qed.

Example root_listing :
  sent_elements (RestApi (demo_app Pending None) (demo_request GET [""] "root" ∅ ∅)).1
  = map JStr ["/rest/v0//hosts"; "/rest/v0//networks"; "/rest/v0//pools";
              "/rest/v0//srs"; "/rest/v0//vbds"; "/rest/v0//vdi-snapshots";
              "/rest/v0//vdis"; "/rest/v0//vifs"; "/rest/v0//vm-snapshots";
              "/rest/v0//vm-templates"; "/rest/v0//vms"].
Proof. vm_compute. reflexivity. Qed.

(** ** The handler monad *)

Lemma bind_normal {A B} (m : handler A) (f : A → handler B) a :
  m.2 = Normal a → (m ≫= f) = (m.1 ++ (f a).1, (f a).2).
Proof. intros H. unfold mbind, handler_bind. by rewrite H. Qed.

Lemma emit_bind {B} ev (f : unit → handler B) :
  (emit ev ≫= f) = (ev :: (f tt).1, (f tt).2).
Proof. reflexivity. Qed.

(** ** Projection *)




Lemma sent_elements_app (t1 t2 : list event) :
  sent_elements (t1 ++ t2) = sent_elements t1 ++ sent_elements t2.
Proof. unfold sent_elements. apply flat_map_app. Qed.

Lemma sent_elements_ndjson (values : list jsval) :
  sent_elements (map ResWrite (createNdJsonStream values)) = values.
Proof.
  induction values as [|v values IH]; [done|].
  simpl. by rewrite IH.
Qed.

(** The elements [sendObjects] sends are its [results], in both modes. *)
Lemma sendObjects_elements (objects : list object) (req : request) :
  sent_elements (sendObjects objects req).1
  = results (baseUrl +:+ path_text (path req)) (query req !! "fields") objects.
Proof.
  unfold sendObjects. destruct (query req !! "ndjson") as [flag|].
  - rewrite emit_bind. unfold pipe. simpl fst.
    change (sent_elements (?ev :: ?t)) with (sent_elements [ev] ++ sent_elements t).
    rewrite sent_elements_app, sent_elements_ndjson. simpl.
    by rewrite app_nil_r.
  - simpl. by rewrite app_nil_r.
Qed.



Example list_unknown_field :
  sent_elements
    (sendObjects [vm1]
       (demo_request GET ["vms"] "root" (<["fields" := "name_label,nothing"]> ∅) ∅)).1
  = [JObj (<["href" := JStr "/rest/v0/vms/vm-1"]> (<["name_label" := JStr "web"]> ∅))].
Proof. vm_compute. reflexivity. Qed.

(** C8: over the same objects and the same [fields], the streamed and the
    buffered response carry the same elements in the same order; the
    buffered one is a single array, the streamed one writes each element
    and a newline. *)
Theorem ndjson_same_elements (objects : list object) (buffered streamed : request) :
  path buffered = path streamed →
  query buffered !! "fields" = query streamed !! "fields" →
  query buffered !! "ndjson" = None →
  is_Some (query streamed !! "ndjson") →
  ∃ elements : list jsval,
    (sendObjects objects buffered).1 = [ResJson (JArr elements)]
    ∧ (sendObjects objects streamed).1
      = ResSet "Content-Type" "application/x-ndjson"
        :: flat_map (λ v, [ResWrite (JsonText v); ResWrite (Bytes newline)]) elements
        ++ [ResEnd None]
    ∧ sent_elements (sendObjects objects streamed).1 = elements
    ∧ sent_elements (sendObjects objects buffered).1 = elements.
Proof.
  intros Hpath Hfields Hb [flag Hs].
  exists (results (baseUrl +:+ path_text (path buffered))
            (query buffered !! "fields") objects).
  split; [|split; [|split]].
  - unfold sendObjects. by rewrite Hb.
  - unfold sendObjects. rewrite Hs, emit_bind, Hpath, Hfields. unfold pipe.
    simpl fst. f_equal. f_equal.
    generalize (results (baseUrl +:+ path_text (path streamed))
                  (query streamed !! "fields") objects).
    intros l. induction l as [|v l IH]; [done|].
    simpl. by rewrite IH.
  - by rewrite sendObjects_elements, Hpath, Hfields.
  - by rewrite sendObjects_elements.
Qed.

Lemma ndjson_same_elements_witness :
  let buffered := listing_request (<["fields" := "id"]> ∅) in
  let streamed := listing_request (<["ndjson" := ""]> (<["fields" := "id"]> ∅)) in
  path buffered = path streamed
  ∧ query buffered !! "fields" = query streamed !! "fields"
  ∧ query buffered !! "ndjson" = None
  ∧ is_Some (query streamed !! "ndjson")
  ∧ ∃ elements : list jsval,
      (sendObjects demo_store buffered).1 = [ResJson (JArr elements)]
      ∧ (sendObjects demo_store streamed).1
        = ResSet "Content-Type" "application/x-ndjson"
          :: flat_map (λ v, [ResWrite (JsonText v); ResWrite (Bytes newline)]) elements
          ++ [ResEnd None]
      ∧ sent_elements (sendObjects demo_store streamed).1 = elements
      ∧ sent_elements (sendObjects demo_store buffered).1 = elements.
Proof.
  intros buffered streamed.
  assert (H1 : path buffered = path streamed) by reflexivity.
  assert (H2 : query buffered !! "fields" = query streamed !! "fields")
    by (vm_compute; reflexivity).
  assert (H3 : query buffered !! "ndjson" = None) by (vm_compute; reflexivity).
  assert (H4 : is_Some (query streamed !! "ndjson"))
    by (exists EmptyString; vm_compute; reflexivity).
  repeat (split; [assumption|]).
  exact (ndjson_same_elements demo_store buffered streamed H1 H2 H3 H4).
Defined.



(** ** The access gate *)

(** C4: whatever the route, a request whose token (the cookie
    [authenticationToken], else the cookie [token]) is refused as invalid
    credentials, or belongs to a user whose permission is not [admin], is
    answered 401 and nothing else happens; any other event of a request
    is that of an administrator. *)
Theorem unauthorized_stops (app : App) (req : request) :
  token_of req = from_option Some (cookies req !! "token")
                   (cookies req !! "authenticationToken")
  ∧ ((∃ e, authenticateUser app (token_of req) = Rejected e
           ∧ invalidCredentials_is e = true)
     ∨ (∃ u, authenticateUser app (token_of req) = Fulfilled u
             ∧ permission u ≠ "admin") →
     RestApi app req = ([CallAuthenticate (token_of req); ResSendStatus 401], Done))
  ∧ ∀ ev : event,
      ev ∈ (RestApi app req).1 →
      ev ≠ CallAuthenticate (token_of req) →
      ev ≠ ResSendStatus 401 →
      ∃ u, authenticateUser app (token_of req) = Fulfilled u
           ∧ permission u = "admin".
Proof.
  split; [|split].
  - unfold token_of. by destruct (cookies req !! "authenticationToken").
  - intros H. unfold RestApi, authenticate.
    destruct H as [(e & -> & ->)|(u & -> & Hu)]; [done|].
    apply String.eqb_neq in Hu. by rewrite Hu.
  - intros ev Hin Hauth H401.
    unfold RestApi, authenticate in Hin.
    destruct (authenticateUser app (token_of req)) as [u|e|] eqn:Hu.
    + destruct (String.eqb (permission u) "admin") eqn:Hp.
      * exists u. split; [done|]. by apply String.eqb_eq.
      * simpl in Hin. by gate_only Hin.
    + destruct (invalidCredentials_is e); simpl in Hin; by gate_only Hin.
    + simpl in Hin. by gate_only Hin.
Qed.

Lemma unauthorized_stops_witness :
  let app := demo_app Pending None in
  let stranger := demo_request DELETE ["vms"; "vm-1"] "forged" ∅ ∅ in
  let guest := demo_request GET ["vms"] "guest" ∅ ∅ in
  ((∃ e, authenticateUser app (token_of stranger) = Rejected e
         ∧ invalidCredentials_is e = true)
   ∧ RestApi app stranger = ([CallAuthenticate (Some "forged"); ResSendStatus 401], Done))
  ∧ ((∃ u, authenticateUser app (token_of guest) = Fulfilled u
           ∧ permission u ≠ "admin")
     ∧ RestApi app guest = ([CallAuthenticate (Some "guest"); ResSendStatus 401], Done)).
Proof.
  intros app stranger guest.
  assert (H1 : ∃ e, authenticateUser app (token_of stranger) = Rejected e
                    ∧ invalidCredentials_is e = true)
    by (exists InvalidCredentials; split; reflexivity).
  assert (H2 : ∃ u, authenticateUser app (token_of guest) = Fulfilled u
                    ∧ permission u ≠ "admin")
    by (exists {| permission := "none" |}; split; [reflexivity|discriminate]).
  split; (split; [assumption|]).
  - exact (proj1 (proj2 (unauthorized_stops app stranger)) (or_introl H1)).
  - exact (proj1 (proj2 (unauthorized_stops app guest)) (or_intror H2)).
Defined.

(** ** The update of a resource *)

(** The answer of the [PATCH] handler does not depend on the promises of
    the calls it makes: one call for each of the two keys that the body
    holds, in the order of the keys, and then the status 200. *)
Lemma patchOne_trace (req : request) (ctx : context) (x : xapiObject) (b : object) :
  body req = Returns b →
  xapiObject_ ctx = Some x →
  wrap (patchOne req ctx)
  = (flat_map (λ key, match prop b key with
                      | JUndefined => []
                      | value => [CallSet key value]
                      end) ["name_description"; "name_label"]
     ++ [ResSendStatus 200], Done).
Proof.
  intros Hb Hx. unfold patchOne. rewrite Hb, Hx. cbn [call].
  rewrite (bind_normal _ _ b) by done. cbn [patch_each flat_map].
  destruct (prop b "name_description"), (prop b "name_label"); reflexivity.
Qed.

Lemma patch_ignores_promises (setter : promise unit) :
  RestApi (demo_app setter None)
    (demo_request PATCH ["vms"; "vm-1"] "root" ∅ (<["name_label" := JStr "x"]> ∅))
  = ([CallAuthenticate (Some "root"); CallGetObject "vm-1" (Some "VM");
      CallSet "name_label" (JStr "x"); ResSendStatus 200], Done).
Proof. vm_compute. reflexivity. Qed.

(** C1, on the code: a [PATCH] of [name_label] whose backend call is
    rejected is answered 200 all the same, and the error goes nowhere:
    the handler awaits the Array of promises, not the promises. *)
Theorem patch_rejected_answers_200 :
  let app := demo_app (Rejected (Error "read-only")) None in
  let req := demo_request PATCH ["vms"; "vm-1"] "root" ∅
               (<["name_label" := JStr "x"]> ∅) in
  RestApi app req
  = ([CallAuthenticate (Some "root"); CallGetObject "vm-1" (Some "VM");
      CallSet "name_label" (JStr "x"); ResSendStatus 200], Done)
  ∧ response_status (RestApi app req).1 = Some 200%Z.
Proof. split; vm_compute; reflexivity. Qed.

Example patch_pending_answers_200 :
  response_status
    (RestApi (demo_app Pending None)
       (demo_request PATCH ["vms"; "vm-1"] "root" ∅
          (<["name_label" := JStr "x"]> ∅))).1
  = Some 200%Z.
Proof. vm_compute. reflexivity. Qed.

(** ** The table of collections *)

Lemma fromEntries_lookup {V} (entries : list (string * V)) (acc : gmap string V)
    (k : string) (v : V) :
  foldl (λ m entry, <[entry.1 := entry.2]> m) acc entries !! k = Some v →
  (k, v) ∈ entries ∨ acc !! k = Some v.
Proof.
  revert acc. induction entries as [|[k' v'] entries IH]; intros acc H.
  - by right.
  - cbn [foldl] in H. apply IH in H as [H|H].
    + left. apply elem_of_cons. by right.
    + cbn [fst snd] in H. apply lookup_insert_Some in H as [[<- <-]|[_ H]].
      * left. apply elem_of_cons. by left.
      * by right.
Qed.

Lemma collections_lookup (id : string) (c : collection) :
  collections !! id = Some c →
  ∃ type, type ∈ types ∧ id = lower type +:+ "s" ∧ c = (collection_entry type).2.
Proof.
  intros H. apply fromEntries_lookup in H as [H|H]; [|by rewrite lookup_empty in H].
  apply list_elem_of_fmap in H as (type & Heq & Hin).
  exists type. by inversion Heq.
Qed.

(** The ids of the table are in lower case. *)
Lemma collections_lower (id : string) (c : collection) :
  collections !! id = Some c → lower id = id.
Proof.
  intros (type & Hin & -> & _)%collections_lookup. unfold types in Hin.
  repeat (apply elem_of_cons in Hin as [->|Hin]; [reflexivity|]).
  by apply elem_of_nil in Hin.
Qed.

(** The membership predicate of a collection of the table compares the
    [type] of the resource with the type of the collection. *)
Lemma collections_isCorrectType (id : string) (c : collection) (o : object) :
  collections !! id = Some c →
  isCorrectType c o = true ↔ prop o "type" = JStr (coll_type c).
Proof.
  intros (type & _ & _ & ->)%collections_lookup. cbn.
  unfold strict_eq_str. destruct (prop o "type"); try (split; [discriminate|congruence]).
  rewrite String.eqb_eq. split; congruence.
Qed.

Lemma one_of_elem (alternatives : list string) (s : string) :
  one_of alternatives s = true ↔ lower s ∈ alternatives.
Proof.
  unfold one_of. rewrite existsb_exists. split.
  - intros (x & Hin & ->%String.eqb_eq). by apply list_elem_of_In.
  - intros Hin. exists (lower s). split; [by apply list_elem_of_In|apply String.eqb_refl].
Qed.

(** ** The router *)

Lemma process_params_unknown (app : App) (ctx : context) (cid : string) (ps : params) :
  collections_get cid = None →
  process_params app (("collection", cid) :: ps) ctx = ([], (ctx, NextRoute)).
Proof.
  intros H. cbn [process_params]. change (String.eqb "collection" "collection") with true.
  cbv iota. unfold param_collection. by rewrite H.
Qed.

(** A stack whose routes all take the first segment as their [collection]
    leaves the router when that segment is not a collection. *)
Lemma handle_unknown_collection (app : App) (stack : list layer) (req : request)
    (ctx : context) (cid : string) :
  Forall (λ l, ∀ ps, layer_match l (path req) = Some ps →
               ∃ ps', ps = ("collection", cid) :: ps') stack →
  collections_get cid = None →
  handle app stack req ctx = ([], Next).
Proof.
  intros Hstack Hcid. induction Hstack as [|l stack Hl _ IH]; [done|].
  cbn [handle]. destruct (method_eqb (layer_method l) (method_ req)); [|done].
  destruct (layer_match l (path req)) as [ps|] eqn:Hm; [|done].
  destruct (Hl ps eq_refl) as [ps' ->].
  rewrite process_params_unknown by done. cbn. by rewrite IH.
Qed.

Lemma routes_collection_first (app : App) (cid : string) (rest : list string) :
  cid ≠ EmptyString → length rest ≤ 1 →
  Forall (λ l, ∀ ps, layer_match l (cid :: rest) = Some ps →
               ∃ ps', ps = ("collection", cid) :: ps') (routes app).
Proof.
  intros Hcid Hlen. unfold routes.
  repeat apply Forall_cons_2; [..|by apply Forall_nil]; cbn; intros ps.
  - unfold match_root. destruct cid; [done|]. by destruct rest.
  - unfold match_collection. destruct rest; [|done].
    destruct (nonempty cid); [|done]. intros [= <-]. by eexists.
  - unfold match_collection_object. destruct rest as [|o [|]]; try done.
    destruct (_ && _); [|done]. intros [= <-]. by eexists.
  - unfold match_collection_object. destruct rest as [|o [|]]; try done.
    destruct (_ && _); [|done]. intros [= <-]. by eexists.
  - unfold match_srs_vdis. destruct rest as [|o [|]]; try done.
    cbn in Hlen. lia.
  - unfold match_collection_object. destruct rest as [|o [|]]; try done.
    destruct (_ && _); [|done]. intros [= <-]. by eexists.
  - unfold match_export_vdi. destruct rest as [|o [|]]; try done.
    destruct (split_ext 3 o) as [[? ?]|]; [|done].
    destruct (_ && _); [|done]. intros [= <-]. by eexists.
  - unfold match_export_vm. destruct rest as [|o [|]]; try done.
    destruct (split_ext 3 o) as [[? ?]|]; [|done].
    destruct (_ && _); [|done]. intros [= <-]. by eexists.
Qed.

Lemma param_object_miss (app : App) (ctx : context) (v : collection_value)
    (id : string) (e : exn) :
  collection_ ctx = Some v →
  getObject app id (type_of v) = Throws e →
  param_object app ctx id
  = ([CallGetObject id (type_of v)], (ctx, object_error id (type_of v) e)).
Proof. intros Hc Hget. unfold param_object. by rewrite Hc, Hget. Qed.

Lemma param_object_found (app : App) (ctx : context) (v : collection_value)
    (id : string) (o : object) (x : xapiObject) :
  collection_ ctx = Some v →
  getObject app id (type_of v) = Returns o →
  getXapiObject app o = Returns x →
  param_object app ctx id
  = ([CallGetObject id (type_of v)],
     ({| collection_ := Some v; xoObject := Some o; xapiObject_ := Some x |}, Next)).
Proof.
  intros Hc Hget Hxapi. unfold param_object. rewrite Hc, Hget, Hxapi.
  reflexivity.
Qed.

Lemma process_params_object (app : App) (ctx : context) (cid id : string)
    (ps : params) (c : collection) :
  collections !! cid = Some c →
  process_params app (("collection", cid) :: ("object", id) :: ps) ctx
  = let r := param_object app
               {| collection_ := Some (Descriptor c); xoObject := xoObject ctx;
                  xapiObject_ := xapiObject_ ctx |} id in
    match r.2.2 with
    | Next => (r.1 ++ (process_params app ps r.2.1).1, (process_params app ps r.2.1).2)
    | _ => r
    end.
Proof.
  intros H. cbn [process_params].
  change (String.eqb "collection" "collection") with true.
  change (String.eqb "object" "collection") with false.
  change (String.eqb "object" "object") with true.
  cbv iota. unfold param_collection, collections_get. rewrite H.
  cbn [fst snd List.app].
  by destruct (param_object _ _ _) as [t [ctx' []]].
Qed.

Lemma collections_get_None (cid : string) :
  collections !! cid = None → cid ∉ Object_prototype → collections_get cid = None.
Proof.
  intros Hc Hp. unfold collections_get. rewrite Hc.
  by rewrite bool_decide_eq_false_2.
Qed.

(** X14: what holds of the two parameters: a first segment that is neither a
    collection of the table nor a name inherited from [Object.prototype]
    makes the request leave the router without an event or an error; an
    [object] that the backend reports as "no such object" for that id and
    the type of the collection makes the router go on with the routes that
    follow, and any other error of the lookup is passed to [next(error)]. *)
Lemma routing_miss (app : App) (req : request) (ctx : context) :
  (∀ cid rest,
     path req = cid :: rest → cid ≠ EmptyString → length rest ≤ 1 →
     collections !! cid = None → cid ∉ Object_prototype →
     handle app (routes app) req ctx = ([], Next))
  ∧ (∀ l stack cid c id ps e,
       method_eqb (layer_method l) (method_ req) = true →
       layer_match l (path req) = Some (("collection", cid) :: ("object", id) :: ps) →
       collections !! cid = Some c →
       let type := Some (coll_type c) in
       let resolved o := {| collection_ := Some (Descriptor c); xoObject := o;
                            xapiObject_ := xapiObject_ ctx |} in
       let miss o :=
         if noSuchObject_is e id type
         then (CallGetObject id type :: (handle app stack req (resolved o)).1,
               (handle app stack req (resolved o)).2)
         else ([CallGetObject id type], NextError e) in
       (getObject app id type = Throws e →
        handle app (l :: stack) req ctx = miss (xoObject ctx))
       ∧ (∀ o, getObject app id type = Returns o →
               getXapiObject app o = Throws e →
               handle app (l :: stack) req ctx = miss (Some o))).
Proof.
  split.
  - intros cid rest Hp Hcid Hlen Hnone Hproto.
    apply handle_unknown_collection with cid; [|by apply collections_get_None].
    rewrite Hp. by apply routes_collection_first.
  - intros l stack cid c id ps e Hm Hl Hc type resolved miss.
    split; [intros Hget|intros o Hget Hxapi];
      cbn [handle]; rewrite Hm, Hl, (process_params_object _ _ _ _ _ _ Hc);
      unfold param_object; cbn [collection_ type_of]; fold type; rewrite Hget;
      [|rewrite Hxapi]; cbn [fst snd xoObject xapiObject_ collection_];
      unfold miss, object_error; by destruct (noSuchObject_is e id type).
Qed.

Example routing_miss_examples :
  let app := demo_app Pending None in
  handle app (routes app) (demo_request GET ["Vms"] "root" ∅ ∅) no_context
  = ([], Next)
  ∧ handle app (routes app) (demo_request DELETE ["vms"; "vm-9"] "root" ∅ ∅) no_context
    = ([CallGetObject "vm-9" (Some "VM")], Next)
  ∧ handle app (routes app) (demo_request DELETE ["vms"; "broken"] "root" ∅ ∅) no_context
    = ([CallGetObject "broken" (Some "VM")], NextError (Error "connection lost")).
Proof. repeat split; vm_compute; reflexivity. Qed.

(** C5, on the code: [constructor] is not a collection of the table, yet
    [collections['constructor']] is the property that the table inherits
    from [Object.prototype] and not [undefined]: the parameter callback
    calls [next()], and the list handler answers with every object of the
    backend, whatever its type.  With an object segment, the lookup is
    made without a type. *)
Theorem inherited_name_is_routed :
  let app := demo_app Pending None in
  let list := demo_request GET ["constructor"] "root" ∅ ∅ in
  let one := demo_request GET ["constructor"; "host-1"] "root" ∅ ∅ in
  collections !! "constructor" = None
  ∧ (param_collection no_context "constructor").2.2 = Next
  ∧ (RestApi app list).2 = Done
  ∧ sent_elements (RestApi app list).1
    = [JStr "/rest/v0/constructor/vm-1"; JStr "/rest/v0/constructor/vdi-1";
       JStr "/rest/v0/constructor/host-1"]
  ∧ RestApi app one
    = ([CallAuthenticate (Some "root"); CallGetObject "host-1" None;
        ResJson (JObj host1)], Done).
Proof. repeat split; vm_compute; reflexivity. Qed.

(** The route of the import has no [collection] parameter, so that its
    [object] parameter finds no [req.collection] to take a type from. *)
Example import_has_no_collection :
  RestApi (demo_app Pending None) (demo_request POST ["srs"; "sr-1"; "vdis"] "root" ∅ ∅)
  = ([CallAuthenticate (Some "root")],
     NextError (TypeError "req.collection is undefined")).
Proof. vm_compute. reflexivity. Qed.

(** ** Deletion *)






Example delete_vm :
  RestApi (demo_app Pending None) (demo_request DELETE ["vms"; "vm-1"] "root" ∅ ∅)
  = ([CallAuthenticate (Some "root"); CallGetObject "vm-1" (Some "VM"); CallDestroy;
      ResSendStatus 200], Done).
Proof. vm_compute. reflexivity. Qed.

Example delete_upper_case :
  RestApi (demo_app Pending None) (demo_request DELETE ["VMS"; "vm-1"] "root" ∅ ∅)
  = ([CallAuthenticate (Some "root")], Next).
Proof. vm_compute. reflexivity. Qed.

(** ** Export *)

Lemma sendStream_trace (s : stream) :
  sendStream s
  = (ResWriteHead (statusCode s) (default EmptyString (statusMessage s))
       (<["content-disposition" := "attachment"]> (headers s))
     :: map (λ c, ResWrite (Bytes c)) (chunks s)
     ++ match failure s with None => [ResEnd None] | Some _ => [] end,
     match failure s with None => Normal tt | Some e => Throw e end).
Proof.
  unfold sendStream, pipeline. rewrite emit_bind.
  destruct (failure s); [|done]. cbn [fst snd]. by rewrite app_nil_r.
Qed.

(** C6: both export handlers, once the backend has opened the stream,
    first write the head of the response, with the status code of the
    stream, its status message (the empty text when it has none) and its
    headers, in which [content-disposition] is set to [attachment], and
    only then the chunks of the stream, as they are and in their order;
    the response ends when the stream does, and a stream that fails leaves
    it unfinished.  The status of the response is that of the stream. *)
Theorem export_mirrors_stream (req : request) (ctx : context) (ps : params)
    (x : xapiObject) (s : stream) :
  xapiObject_ ctx = Some x →
  let hdrs := <["content-disposition" := "attachment"]> (headers s) in
  let sent :=
    ResWriteHead (statusCode s) (default EmptyString (statusMessage s)) hdrs
    :: map (λ c, ResWrite (Bytes c)) (chunks s)
    ++ match failure s with None => [ResEnd None] | Some _ => [] end in
  let ending := match failure s with None => Normal tt | Some e => Throw e end in
  (hdrs !! "content-disposition" = Some "attachment"
   ∧ ∀ k : string, k ≠ "content-disposition" → hdrs !! k = headers s !! k)
  ∧ response_status sent = Some (statusCode s)
  ∧ (∀ format, param ps "format" = Some format →
               _exportContent x format = Fulfilled s →
               exportVdi ctx ps = (CallExportContent format :: sent, ending))
  ∧ (_export x (query req !! "compress") = Fulfilled s →
     exportVm req ctx = (CallExport (query req !! "compress") :: sent, ending)).
Proof.
  intros Hx hdrs sent ending. split; [split|split; [|split]].
  - apply lookup_insert_eq.
  - intros k Hk. by apply lookup_insert_ne.
  - reflexivity.
  - intros format Hformat Hexport. unfold exportVdi, defined.
    rewrite Hx, Hformat. unfold mbind, handler_bind, mret, handler_ret, emit, await.
    cbn [fst snd List.app]. rewrite Hexport. cbn [fst snd List.app].
    by rewrite sendStream_trace.
  - intros Hexport. unfold exportVm, defined.
    rewrite Hx. unfold mbind, handler_bind, mret, handler_ret, emit, await.
    cbn [fst snd List.app]. rewrite Hexport. cbn [fst snd List.app].
    by rewrite sendStream_trace.
Qed.

Lemma export_mirrors_stream_witness :
  let x := demo_xapi Pending in
  let ctx := {| collection_ := None; xoObject := None; xapiObject_ := Some x |} in
  let req := demo_request GET ["vdis"; "vdi-1.raw"] "root" ∅ ∅ in
  let ps := [("collection", "vdis"); ("object", "vdi-1"); ("format", "raw")] in
  xapiObject_ ctx = Some x
  ∧ param ps "format" = Some "raw"
  ∧ _exportContent x "raw" = Fulfilled demo_stream
  ∧ exportVdi ctx ps
    = ([CallExportContent "raw";
        ResWriteHead 206 ""
          (<["content-disposition" := "attachment"]> (headers demo_stream));
        ResWrite (Bytes "ab"); ResWrite (Bytes "cd"); ResEnd None], Normal tt).
Proof.
  intros x ctx req ps.
  assert (H1 : xapiObject_ ctx = Some x) by reflexivity.
  assert (H2 : param ps "format" = Some "raw") by reflexivity.
  assert (H3 : _exportContent x "raw" = Fulfilled demo_stream) by reflexivity.
  repeat (split; [assumption|]).
  exact (proj1 (proj2 (proj2 (export_mirrors_stream req ctx ps x demo_stream H1)))
           "raw" H2 H3).
Defined.

Lemma length_app (a b : string) :
  String.length (a +:+ b) = String.length a + String.length b.
Proof. induction a as [|c a IH]; [done|]. simpl. f_equal. exact IH. Qed.

Lemma substring_all (s : string) : String.substring 0 (String.length s) s = s.
Proof. induction s as [|c s IH]; [done|]. simpl. f_equal. exact IH. Qed.

Lemma substring_prefix (a b : string) :
  String.substring 0 (String.length a) (a +:+ b) = a.
Proof.
  induction a as [|c a IH]; simpl; [by destruct b|]. f_equal. exact IH.
Qed.

Lemma substring_skip (a b : string) (n m : nat) :
  String.substring (String.length a + n) m (a +:+ b) = String.substring n m b.
Proof. induction a as [|c a IH]; [done|]. simpl. apply IH. Qed.

(** A segment made of an object, a dot and an extension of three
    characters splits into the two. *)
Lemma split_ext_app (o ext : string) :
  o ≠ EmptyString → String.length ext = 3 →
  split_ext 3 (o +:+ "." +:+ ext) = Some (o, ext).
Proof.
  intros Ho Hext. unfold split_ext.
  rewrite length_app. change ("." +:+ ext) with (String "." ext).
  cbn [String.length]. rewrite Hext.
  assert (0 < String.length o) by (destruct o; [done|cbn; lia]).
  replace (3 + 2 <=? String.length o + 4)%nat with true
    by (symmetry; apply Nat.leb_le; lia).
  replace (String.length o + 4 - 3 - 1) with (String.length o + 0) by lia.
  replace (String.length o + 4 - 3) with (String.length o + 1) by lia.
  rewrite !substring_skip.
  assert (String.substring 0 1 (String "." ext) = ".") as ->
    by (by destruct ext).
  assert (String.substring 1 3 (String "." ext) = ext) as ->.
  { change (String.substring 0 3 ext = ext). rewrite <- Hext. apply substring_all. }
  by rewrite Nat.add_0_r, substring_prefix.
Qed.

(** X12: an export of a disk through the router: the route
    [/:collection/:object] matches first and takes the whole segment for
    the object; when the backend has no such object the router moves on,
    and the export route resolves the object without its extension. *)
Lemma handle_export_vdi (app : App) (req : request) (cid o format : string)
    (c : collection) (e : exn) (obj : object) (x : xapiObject) (s : stream) :
  method_ req = GET →
  path req = [cid; o +:+ "." +:+ format] →
  cid ∈ ["vdis"; "vdi-snapshots"] →
  format ∈ ["vhd"; "raw"] →
  o ≠ EmptyString →
  collections !! cid = Some c →
  let type := Some (coll_type c) in
  getObject app (o +:+ "." +:+ format) type = Throws e →
  noSuchObject_is e (o +:+ "." +:+ format) type = true →
  getObject app o type = Returns obj →
  getXapiObject app obj = Returns x →
  _exportContent x format = Fulfilled s →
  handle app (routes app) req no_context
  = (CallGetObject (o +:+ "." +:+ format) type
     :: CallGetObject o type
     :: CallExportContent format
     :: ResWriteHead (statusCode s) (default EmptyString (statusMessage s))
          (<["content-disposition" := "attachment"]> (headers s))
     :: map (λ c, ResWrite (Bytes c)) (chunks s)
     ++ match failure s with None => [ResEnd None] | Some _ => [] end,
     match failure s with None => Done | Some e => NextError e end).
Proof.
  intros Hm Hp Hcid Hformat Ho Hc type Hmiss Hno Hget Hxapi Hexport.
  assert (Hseg : nonempty (o +:+ "." +:+ format) = true) by (by destruct o).
  assert (Hsplit : split_ext 3 (o +:+ "." +:+ format) = Some (o, format)).
  { apply split_ext_app; [done|].
    repeat (apply elem_of_cons in Hformat as [->|Hformat]; [reflexivity|]).
    by apply elem_of_nil in Hformat. }
  assert (Hfmt : one_of ["vhd"; "raw"] format = true).
  { repeat (apply elem_of_cons in Hformat as [->|Hformat]; [reflexivity|]).
    by apply elem_of_nil in Hformat. }
  assert (Hcol : nonempty cid = true ∧ one_of ["vdis"; "vdi-snapshots"] cid = true).
  { repeat (apply elem_of_cons in Hcid as [->|Hcid]; [by split|]).
    by apply elem_of_nil in Hcid. }
  destruct Hcol as [Hne Hone].
  unfold routes. cbn [handle]. rewrite Hm, Hp. on_routes.
  assert (match_root [cid; o +:+ "." +:+ format] = None) as ->
    by (unfold match_root; by destruct cid).
  change (match_collection [cid; o +:+ "." +:+ format]) with (@None params).
  cbv iota. unfold match_collection_object. cbn [from_option].
  rewrite Hne, Hseg. cbn [andb].
  rewrite (process_params_object _ _ _ _ _ _ Hc).
  rewrite (param_object_miss _ _ (Descriptor c) _ e) by done.
  cbn [fst snd type_of]. unfold object_error. fold type. rewrite Hno.
  unfold match_export_vdi. rewrite Hsplit, Hone, Hfmt. cbn [andb].
  rewrite (process_params_object _ _ _ _ _ _ Hc).
  rewrite (param_object_found _ _ (Descriptor c) _ obj x) by done.
  cbn [fst snd process_params type_of]. fold type.
  change (String.eqb "format" "collection") with false.
  change (String.eqb "format" "object") with false.
  cbn [fst snd List.app].
  unfold exportVdi, defined, param. cbn [xapiObject_ List.find fst snd].
  change (String.eqb "collection" "format") with false.
  change (String.eqb "object" "format") with false.
  change (String.eqb "format" "format") with true.
  cbn [fmap option_fmap option_map snd].
  rewrite (bind_normal _ _ x) by done.
  rewrite (bind_normal _ _ format) by done.
  rewrite emit_bind, Hexport, (bind_normal _ _ s) by done.
  rewrite sendStream_trace. unfold wrap. cbn [fst snd List.app mret handler_ret].
  by destruct (failure s).
Qed.

Example export_through_router :
  RestApi (demo_app Pending None) (demo_request GET ["vdis"; "vdi-1.vhd"] "root" ∅ ∅)
  = ([CallAuthenticate (Some "root"); CallGetObject "vdi-1.vhd" (Some "VDI");
      CallGetObject "vdi-1" (Some "VDI"); CallExportContent "vhd";
      ResWriteHead 206 ""
        (<["content-disposition" := "attachment"]>
           (<["content-type" := "application/octet-stream"]> ∅));
      ResWrite (Bytes "ab"); ResWrite (Bytes "cd"); ResEnd None], Done).
Proof. vm_compute. reflexivity. Qed.

(** ** Listing a collection *)

Lemma getCollection_filtered (app : App) (req : request) (ctx : context)
    (c : collection) (userFilter : filter_arg) (filter : object → bool) :
  collection_ ctx = Some (Descriptor c) →
  handleOptionalUserFilter app (query req !! "filter") = ([], Normal userFilter) →
  every [Predicate (isCorrectType c); userFilter] = Returns filter →
  getCollection app req ctx
  = let limit := ifDef (query req !! "limit") (Number app) in
    (CallGetObjects filter limit
     :: ((await (getObjects app filter limit) ≫= λ objects, sendObjects objects req)).1,
     ((await (getObjects app filter limit) ≫= λ objects, sendObjects objects req)).2).
Proof.
  intros Hc Hf He. unfold getCollection, defined. rewrite Hc.
  rewrite (bind_normal _ _ (Descriptor c)) by done. rewrite Hf.
  rewrite (bind_normal _ _ userFilter) by done. cbn [isCorrectType_of]. rewrite He.
  reflexivity.
Qed.

(** A [GET] of one segment that is a collection of the table goes to the
    list handler, with that collection on the request. *)
Lemma handle_list (app : App) (req : request) (cid : string) (c : collection) :
  method_ req = GET →
  path req = [cid] →
  collections !! cid = Some c →
  handle app (routes app) req no_context
  = wrap (getCollection app req
            {| collection_ := Some (Descriptor c); xoObject := None;
               xapiObject_ := None |}).
Proof.
  intros Hm Hp Hc. unfold routes. cbn [handle]. rewrite Hm, Hp. on_routes.
  assert (Hne : nonempty cid = true).
  { apply collections_lookup in Hc as (type & Hin & -> & _). unfold types in Hin.
    repeat (apply elem_of_cons in Hin as [->|Hin]; [reflexivity|]).
    by apply elem_of_nil in Hin. }
  assert (match_root [cid] = None) as ->.
  { unfold match_root. by destruct cid. }
  unfold match_collection. rewrite Hne. cbn [process_params].
  change (String.eqb "collection" "collection") with true. cbv iota.
  unfold param_collection, collections_get. rewrite Hc.
  cbn [fst snd List.app xoObject xapiObject_ no_context].
  by destruct (wrap _).
Qed.

Lemma sendObjects_normal (objects : list object) (req : request) :
  (sendObjects objects req).2 = Normal tt.
Proof. unfold sendObjects. by destruct (query req !! "ndjson"). Qed.

(** C3: the filter that [GET /:collection] gives to [getObjects] is the
    conjunction of the membership predicate of the collection (the [type]
    of the resource is that of the collection) and of the user's filter,
    which is always true when no filter is given; so, of a backend that
    returns only objects that pass the filter it is given, every resource
    listed is of the collection and passes the user's filter. *)
Theorem list_filter (app : App) (req : request) (cid : string)
    (c : collection) (userFilter : object → bool) :
  method_ req = GET →
  path req = [cid] →
  collections !! cid = Some c →
  (query req !! "filter" = None ∧ userFilter = (λ _, true))
  ∨ (∃ text, query req !! "filter" = Some text ∧ text ≠ EmptyString
             ∧ CM_parse app text = Returns userFilter) →
  ∃ (filter : object → bool) (limit : option jsnumber),
    (∀ o, filter o = isCorrectType c o && userFilter o)
    ∧ (∀ o, isCorrectType c o = true ↔ prop o "type" = JStr (coll_type c))
    ∧ (∃ rest, (handle app (routes app) req no_context).1
               = CallGetObjects filter limit :: rest)
    ∧ ∀ objects,
        getObjects app filter limit = Fulfilled objects →
        handle app (routes app) req no_context
        = (CallGetObjects filter limit :: (sendObjects objects req).1, Done)
        ∧ (Forall (λ o, filter o = true) objects →
           Forall (λ o, isCorrectType c o = true ∧ userFilter o = true) objects).
Proof.
  intros Hm Hp Hcid Hfilter. rewrite (handle_list app req cid c Hm Hp Hcid).
  set (ctx := {| collection_ := Some (Descriptor c); xoObject := None;
                 xapiObject_ := None |}).
  assert (∃ filter,
            (∀ o, filter o = isCorrectType c o && userFilter o)
            ∧ getCollection app req ctx
              = let limit := ifDef (query req !! "limit") (Number app) in
                (CallGetObjects filter limit
                 :: ((await (getObjects app filter limit)
                      ≫= λ objects, sendObjects objects req)).1,
                 ((await (getObjects app filter limit)
                   ≫= λ objects, sendObjects objects req)).2))
    as (filter & Hand & Hrun).
  { destruct Hfilter as [[Hq ->]|(text & Hq & Htext & Hparse)].
    - exists (λ o, isCorrectType c o && true). split; [done|].
      apply (getCollection_filtered app req ctx c Absent); [done| |done]. by rewrite Hq.
    - exists (λ o, isCorrectType c o && (userFilter o && true)). split.
      + intros o. by rewrite andb_true_r.
      + apply (getCollection_filtered app req ctx c (Predicate userFilter)); [done| |done].
        rewrite Hq. unfold handleOptionalUserFilter.
        destruct text; [done|]. by rewrite Hparse. }
  exists filter, (ifDef (query req !! "limit") (Number app)).
  split; [done|]. split; [intros o; by apply (collections_isCorrectType cid)|]. split.
  - rewrite Hrun. unfold wrap. cbv zeta. cbn [fst snd].
    destruct (_ ≫= _) as [t []]; by eexists.
  - intros objects Hobjects. split.
    + rewrite Hrun. cbv zeta. rewrite Hobjects. unfold wrap, await.
      rewrite (bind_normal _ _ objects) by done. cbn [fst snd List.app].
      by rewrite sendObjects_normal.
    + intros Hpass. eapply Forall_impl; [exact Hpass|].
      intros o Ho. cbv beta in Ho |- *. rewrite Hand in Ho.
      by apply andb_prop in Ho.
Qed.

Lemma list_filter_witness :
  let app := demo_app Pending None in
  let req := demo_request GET ["vms"] "root" (<["filter" := "web"]> ∅) ∅ in
  method_ req = GET
  ∧ path req = ["vms"]
  ∧ collections !! "vms" = Some vms
  ∧ (∃ text, query req !! "filter" = Some text ∧ text ≠ EmptyString
             ∧ CM_parse app text = Returns named_web)
  ∧ ∃ (filter : object → bool) (limit : option jsnumber),
      (∀ o, filter o = isCorrectType vms o && named_web o)
      ∧ (∀ o, isCorrectType vms o = true ↔ prop o "type" = JStr (coll_type vms))
      ∧ (∃ rest, (handle app (routes app) req no_context).1
                 = CallGetObjects filter limit :: rest)
      ∧ ∀ objects,
          getObjects app filter limit = Fulfilled objects →
          handle app (routes app) req no_context
          = (CallGetObjects filter limit :: (sendObjects objects req).1, Done)
          ∧ (Forall (λ o, filter o = true) objects →
             Forall (λ o, isCorrectType vms o = true ∧ named_web o = true) objects).
Proof.
  intros app req.
  assert (H0 : method_ req = GET) by reflexivity.
  assert (H1 : path req = ["vms"]) by reflexivity.
  assert (H2 : collections !! "vms" = Some vms) by (vm_compute; reflexivity).
  assert (H3 : ∃ text, query req !! "filter" = Some text ∧ text ≠ EmptyString
                       ∧ CM_parse app text = Returns named_web).
  { exists "web". split; [vm_compute; reflexivity|]. split; [discriminate|reflexivity]. }
  repeat (split; [assumption|]).
  exact (list_filter app req "vms" vms named_web H0 H1 H2 (or_intror H3)).
Defined.

Example list_mixed_store :
  sent_elements
    (RestApi (demo_app Pending None)
       (demo_request GET ["vms"] "root" (<["filter" := "web"]> ∅) ∅)).1
  = [JStr "/rest/v0/vms/vm-1"]
  ∧ sent_elements
      (RestApi (demo_app Pending None) (demo_request GET ["hosts"] "root" ∅ ∅)).1
    = [JStr "/rest/v0/hosts/host-1"].
Proof. split; vm_compute; reflexivity. Qed.

(** ** A filter that does not parse *)

(** C2, as the spec words it, fails: the request [GET /vms?filter=(] of an
    administrator, whose filter does not parse, is not answered with a
    status from 400 to 499. *)
Lemma parse_failure_counterexample :
  ¬ parse_failure_is_client_error (demo_app Pending None)
      (demo_request GET ["vms"] "root" (<["filter" := "("]> ∅) ∅).
Proof.
  intros H.
  destruct (H "(" (Error "parse error")) as (code & Hcode & _).
  - vm_compute. reflexivity.
  - reflexivity.
  - vm_compute in Hcode. discriminate.
Qed.

(** Whatever the error handler of the application answers to an error, it
    answers the same to the parser's error and to the same error from the
    backend: the router hands both over in the same way. *)
Lemma parse_failure_same_status (generic : exn → Z) :
  final_status generic
    (RestApi (demo_app Pending None)
       (demo_request GET ["vms"] "root" (<["filter" := "("]> ∅) ∅))
  = final_status generic
      (RestApi (demo_app Pending (Some (Error "parse error")))
         (demo_request GET ["vms"] "root" ∅ ∅)).
Proof. reflexivity. Qed.

Example parse_failure_like_backend_failure :
  RestApi (demo_app Pending None)
    (demo_request GET ["vms"] "root" (<["filter" := "("]> ∅) ∅)
  = ([CallAuthenticate (Some "root")], NextError (Error "parse error"))
  ∧ (RestApi (demo_app Pending (Some (Error "parse error")))
       (demo_request GET ["vms"] "root" ∅ ∅)).2
    = NextError (Error "parse error").
Proof. split; vm_compute; reflexivity. Qed.

(** C2, amended: when the filter of a [GET] on a collection is a text that
    is not empty and does not parse, no backend is called and nothing is
    sent: the error of the parser goes to [next(error)]; a rejection by
    [getObjects] goes the same way. *)
Theorem parse_failure_goes_to_next (app : App) (req : request) (cid : string)
    (c : collection) :
  method_ req = GET →
  path req = [cid] →
  collections !! cid = Some c →
  (∀ text e,
     query req !! "filter" = Some text → text ≠ EmptyString →
     CM_parse app text = Throws e →
     handle app (routes app) req no_context = ([], NextError e)
     ∧ response_status (handle app (routes app) req no_context).1 = None)
  ∧ (∀ e,
       query req !! "filter" = None →
       (∀ filter limit, getObjects app filter limit = Rejected e) →
       ∃ filter limit,
         handle app (routes app) req no_context
         = ([CallGetObjects filter limit], NextError e)).
Proof.
  intros Hm Hp Hc. rewrite (handle_list app req cid c Hm Hp Hc).
  set (ctx := {| collection_ := Some (Descriptor c); xoObject := None;
                 xapiObject_ := None |}).
  split.
  - intros text e Hq Htext Hparse.
    assert (wrap (getCollection app req ctx) = ([], NextError e)) as ->; [|done].
    unfold getCollection, defined. cbn [collection_ ctx]. rewrite Hq.
    rewrite (bind_normal _ _ (Descriptor c)) by done.
    unfold handleOptionalUserFilter. destruct text; [done|]. rewrite Hparse.
    reflexivity.
  - intros e Hq Hreject.
    exists (λ o, isCorrectType c o && true), (ifDef (query req !! "limit") (Number app)).
    rewrite (getCollection_filtered app req ctx c Absent
               (λ o, isCorrectType c o && true)); [|done|by rewrite Hq|done].
    cbv zeta. rewrite Hreject. reflexivity.
Qed.

Lemma parse_failure_goes_to_next_witness :
  let app := demo_app Pending None in
  let down := demo_app Pending (Some (Error "connection lost")) in
  let bad := demo_request GET ["vms"] "root" (<["filter" := "("]> ∅) ∅ in
  let plain := demo_request GET ["vms"] "root" ∅ ∅ in
  (method_ bad = GET ∧ path bad = ["vms"]
   ∧ collections !! "vms" = Some vms
   ∧ query bad !! "filter" = Some "("
   ∧ CM_parse app "(" = Throws (Error "parse error")
   ∧ handle app (routes app) bad no_context = ([], NextError (Error "parse error")))
  ∧ (query plain !! "filter" = None
     ∧ (∀ filter limit, getObjects down filter limit = Rejected (Error "connection lost"))
     ∧ ∃ filter limit,
         handle down (routes down) plain no_context
         = ([CallGetObjects filter limit], NextError (Error "connection lost"))).
Proof.
  intros app down bad plain.
  assert (H0 : method_ bad = GET) by reflexivity.
  assert (H1 : path bad = ["vms"]) by reflexivity.
  assert (Hc : collections !! "vms" = Some vms) by (vm_compute; reflexivity).
  assert (H2 : query bad !! "filter" = Some "(") by (vm_compute; reflexivity).
  assert (H3 : CM_parse app "(" = Throws (Error "parse error")) by reflexivity.
  assert (H4 : query plain !! "filter" = None) by (vm_compute; reflexivity).
  assert (H5 : ∀ filter limit,
             getObjects down filter limit = Rejected (Error "connection lost"))
    by reflexivity.
  split.
  - repeat (split; [assumption|]).
    refine (proj1 (proj1 (parse_failure_goes_to_next app bad "vms" vms H0 H1 Hc)
                     "(" (Error "parse error") H2 _ H3)).
    discriminate.
  - repeat (split; [assumption|]).
    exact (proj2 (parse_failure_goes_to_next down plain "vms" vms eq_refl eq_refl Hc)
             (Error "connection lost") H4 H5).
Defined.

(** * Further properties *)

(** ** One route at a time *)

Lemma handle_skip (app : App) (l : layer) (stack : list layer) (req : request)
    (ctx : context) :
  method_eqb (layer_method l) (method_ req) = false
  ∨ layer_match l (path req) = None →
  handle app (l :: stack) req ctx = handle app stack req ctx.
Proof.
  intros H. cbn [handle]. destruct H as [-> | ->]; [done|].
  by destruct (method_eqb _ _).
Qed.

Lemma handle_run (app : App) (l : layer) (stack : list layer) (req : request)
    (ctx : context) (ps : params) (t : list event) (ctx' : context) :
  method_eqb (layer_method l) (method_ req) = true →
  layer_match l (path req) = Some ps →
  process_params app ps ctx = (t, (ctx', Next)) →
  handle app (l :: stack) req ctx
  = (t ++ (wrap (layer_handle l req ctx' ps)).1, (wrap (layer_handle l req ctx' ps)).2).
Proof. intros Hm Hl Hp. cbn [handle]. by rewrite Hm, Hl, Hp. Qed.

Lemma handle_next_route (app : App) (l : layer) (stack : list layer) (req : request)
    (ctx : context) (ps : params) (t : list event) (ctx' : context) :
  method_eqb (layer_method l) (method_ req) = true →
  layer_match l (path req) = Some ps →
  process_params app ps ctx = (t, (ctx', NextRoute)) →
  handle app (l :: stack) req ctx
  = (t ++ (handle app stack req ctx').1, (handle app stack req ctx').2).
Proof. intros Hm Hl Hp. cbn [handle]. by rewrite Hm, Hl, Hp. Qed.

Lemma handle_error (app : App) (l : layer) (stack : list layer) (req : request)
    (ctx : context) (ps : params) (t : list event) (ctx' : context) (e : exn) :
  method_eqb (layer_method l) (method_ req) = true →
  layer_match l (path req) = Some ps →
  process_params app ps ctx = (t, (ctx', NextError e)) →
  handle app (l :: stack) req ctx = (t, NextError e).
Proof. intros Hm Hl Hp. cbn [handle]. by rewrite Hm, Hl, Hp. Qed.


(** ** The table and the listing of the collections *)

Lemma collections_entry (type : string) :
  type ∈ types →
  collections !! (collection_entry type).1 = Some (collection_entry type).2.
Proof.
  intros Hin. unfold types in Hin.
  repeat (apply elem_of_cons in Hin as [->|Hin]; [vm_compute; reflexivity|]).
  by apply elem_of_nil in Hin.
Qed.

(** X1: the table holds exactly one descriptor for each of the eleven
    types, under the id made of the type in lower case and an [s]; the
    ids are all different, and a descriptor carries the id it is stored
    under. *)
Theorem collections_table (id : string) (c : collection) :
  (collections !! id = Some c ↔ (id, c) ∈ collection_entries)
  ∧ NoDup (map fst collection_entries)
  ∧ length collection_entries = 11
  ∧ (collections !! id = Some c →
     coll_id c = id ∧ id = lower (coll_type c) +:+ "s" ∧ lower id = id
     ∧ coll_type c ∈ types).
Proof.
  split; [|split; [|split]].
  - split.
    + intros (type & Hin & -> & ->)%collections_lookup.
      apply list_elem_of_fmap. exists type. split; [|done].
      reflexivity.
    + intros (type & Heq & Hin)%list_elem_of_fmap.
      pose proof (collections_entry type Hin) as H. by rewrite <- Heq in H.
  - apply (bool_decide_unpack (NoDup (map fst collection_entries))).
    vm_compute. exact I.
  - reflexivity.
  - intros H. pose proof (collections_lower id c H) as Hlow.
    apply collections_lookup in H as (type & Hin & -> & ->). by cbn.
Qed.



(** ** The access gate, again *)

(** X3: when authentication fails for a reason other than the credentials,
    the error goes to [next(error)]: no 401 is sent and no route is tried;
    while authentication is not settled nothing at all happens after the
    call. *)
Theorem authentication_failure_is_passed_on (app : App) (req : request) :
  (∀ e, authenticateUser app (token_of req) = Rejected e →
        invalidCredentials_is e = false →
        RestApi app req = ([CallAuthenticate (token_of req)], NextError e))
  ∧ (authenticateUser app (token_of req) = Pending →
     RestApi app req = ([CallAuthenticate (token_of req)], Stalled)).
Proof.
  split.
  - intros e He Hne. unfold RestApi, authenticate. by rewrite He, Hne.
  - intros Hp. unfold RestApi, authenticate. by rewrite Hp.
Qed.

Lemma authentication_failure_is_passed_on_witness :
  let req := demo_request DELETE ["vms"; "vm-1"] "root" ∅ ∅ in
  authenticateUser demo_app_auth_down (token_of req) = Rejected (Error "ldap unreachable")
  ∧ invalidCredentials_is (Error "ldap unreachable") = false
  ∧ RestApi demo_app_auth_down req
    = ([CallAuthenticate (Some "root")], NextError (Error "ldap unreachable")).
Proof.
  intros req.
  assert (H1 : authenticateUser demo_app_auth_down (token_of req)
               = Rejected (Error "ldap unreachable")) by reflexivity.
  assert (H2 : invalidCredentials_is (Error "ldap unreachable") = false) by reflexivity.
  repeat (split; [assumption|]).
  exact (proj1 (authentication_failure_is_passed_on demo_app_auth_down req)
           (Error "ldap unreachable") H1 H2).
Defined.

(** The router looks at the method and the path of a request, and hands
    it to handlers that look at nothing else than its query, headers and
    body. *)
Lemma handle_ext (app : App) (stack : list layer) (req req' : request) :
  method_ req = method_ req' →
  path req = path req' →
  Forall (λ l, ∀ ctx ps, layer_handle l req ctx ps = layer_handle l req' ctx ps) stack →
  ∀ ctx, handle app stack req ctx = handle app stack req' ctx.
Proof.
  intros Hm Hp Hstack. induction Hstack as [|l stack Hl _ IH]; intros ctx; [done|].
  cbn [handle]. rewrite Hm, Hp.
  destruct (method_eqb (layer_method l) (method_ req')); [|apply IH].
  destruct (layer_match l (path req')) as [ps|]; [|apply IH].
  destruct (process_params app ps ctx) as [t [ctx' d]]. cbn [fst snd].
  destruct d; rewrite ?Hl, ?IH; reflexivity.
Qed.

Lemma handle_same_request (app : App) (req req' : request) :
  method_ req = method_ req' →
  path req = path req' →
  query req = query req' →
  req_headers req = req_headers req' →
  body req = body req' →
  handle app (routes app) req no_context = handle app (routes app) req' no_context.
Proof.
  intros Hm Hp Hq Hh Hb. apply handle_ext; [done|done|].
  destruct req as [m p q c h b], req' as [m' p' q' c' h' b'].
  cbn in Hm, Hp, Hq, Hh, Hb. subst m' p' q' h' b'.
  unfold routes. repeat apply Forall_cons_2; [..|by apply Forall_nil];
    intros ctx ps; on_routes;
    unfold getRoot, getCollection, patchOne, postVdi, exportVm, sendObjects;
    cbn [method_ path query req_headers body]; reflexivity.
Qed.

(** X4: when the cookie [authenticationToken] is there, nothing depends on
    the cookie [token], nor on any other cookie: two requests that agree
    on it and on everything but their cookies are treated alike. *)
Theorem token_cookie_is_a_fallback (app : App) (req req' : request) (t : string) :
  cookies req !! "authenticationToken" = Some t →
  cookies req' !! "authenticationToken" = Some t →
  method_ req = method_ req' →
  path req = path req' →
  query req = query req' →
  req_headers req = req_headers req' →
  body req = body req' →
  token_of req = Some t ∧ RestApi app req = RestApi app req'.
Proof.
  intros Hc Hc' Hm Hp Hq Hh Hb.
  assert (Ht : token_of req = Some t) by (unfold token_of; by rewrite Hc).
  assert (Ht' : token_of req' = Some t) by (unfold token_of; by rewrite Hc').
  split; [done|].
  unfold RestApi, authenticate. rewrite Ht, Ht'.
  by rewrite (handle_same_request app req req' Hm Hp Hq Hh Hb).
Qed.

Lemma token_cookie_is_a_fallback_witness :
  let app := demo_app Pending None in
  let forged : request :=
    {| method_ := GET; path := ["vms"]; query := ∅;
       cookies := <["authenticationToken" := "forged"]> (<["token" := "root"]> ∅);
       req_headers := ∅; body := Returns ∅ |} in
  let plain : request :=
    {| method_ := GET; path := ["vms"]; query := ∅;
       cookies := <["authenticationToken" := "forged"]> ∅;
       req_headers := ∅; body := Returns ∅ |} in
  cookies forged !! "authenticationToken" = Some "forged"
  ∧ cookies plain !! "authenticationToken" = Some "forged"
  ∧ cookies forged !! "token" = Some "root"
  ∧ token_of forged = Some "forged"
  ∧ RestApi app forged = RestApi app plain
  ∧ RestApi app plain = ([CallAuthenticate (Some "forged"); ResSendStatus 401], Done).
Proof.
  intros app forged plain.
  assert (H1 : cookies forged !! "authenticationToken" = Some "forged")
    by (vm_compute; reflexivity).
  assert (H2 : cookies plain !! "authenticationToken" = Some "forged")
    by (vm_compute; reflexivity).
  assert (H3 : cookies forged !! "token" = Some "root") by (vm_compute; reflexivity).
  split; [exact H1|]. split; [exact H2|]. split; [exact H3|].
  destruct (token_cookie_is_a_fallback app forged plain "forged" H1 H2
              eq_refl eq_refl eq_refl eq_refl eq_refl) as [Ht Heq].
  split; [exact Ht|]. split; [exact Heq|]. vm_compute. reflexivity.
Defined.

(** ** The routes on one resource *)

Lemma collections_nonempty (cid : string) (c : collection) :
  collections !! cid = Some c → nonempty cid = true.
Proof.
  intros (type & Hin & -> & _)%collections_lookup. unfold types in Hin.
  repeat (apply elem_of_cons in Hin as [->|Hin]; [reflexivity|]).
  by apply elem_of_nil in Hin.
Qed.

(** What the routes on [/:collection/:object] have in common: once the
    collection and the object are resolved, the handler of the route runs
    on them. *)
Lemma process_params_resolved (app : App) (ctx : context) (cid o : string)
    (c : collection) (obj : object) (x : xapiObject) :
  collections !! cid = Some c →
  getObject app o (Some (coll_type c)) = Returns obj →
  getXapiObject app obj = Returns x →
  process_params app [("collection", cid); ("object", o)] ctx
  = ([CallGetObject o (Some (coll_type c))],
     ({| collection_ := Some (Descriptor c); xoObject := Some obj;
         xapiObject_ := Some x |}, Next)).
Proof.
  intros Hc Hget Hxapi. rewrite (process_params_object _ _ _ _ _ _ Hc).
  by rewrite (param_object_found _ _ (Descriptor c) _ obj x).
Qed.

(** X5: [GET /:collection/:object] on a resource that resolves answers the
    resource as the backend holds it, whole: the query ([fields],
    [ndjson], [filter]) plays no part and no other call is made. *)
Theorem get_one_route (app : App) (req : request) (cid o : string)
    (c : collection) (obj : object) (x : xapiObject) :
  method_ req = GET →
  path req = [cid; o] →
  collections !! cid = Some c →
  o ≠ EmptyString →
  getObject app o (Some (coll_type c)) = Returns obj →
  getXapiObject app obj = Returns x →
  handle app (routes app) req no_context
  = ([CallGetObject o (Some (coll_type c)); ResJson (JObj obj)], Done).
Proof.
  intros Hm Hp Hc Ho Hget Hxapi.
  unfold routes.
  rewrite handle_skip by (right; rewrite Hp; unfold rootLayer, layer_match, match_root;
                          by destruct cid).
  rewrite handle_skip by (right; rewrite Hp; reflexivity).
  rewrite (handle_run app getLayer _ req no_context
             [("collection", cid); ("object", o)]
             [CallGetObject o (Some (coll_type c))]
             {| collection_ := Some (Descriptor c); xoObject := Some obj;
                xapiObject_ := Some x |}).
  - reflexivity.
  - rewrite Hm. reflexivity.
  - rewrite Hp. cbn [getLayer layer_match match_collection_object from_option].
    rewrite (collections_nonempty cid c Hc).
    apply String.eqb_neq in Ho. unfold nonempty. by rewrite Ho.
  - by apply process_params_resolved.
Qed.

Lemma get_one_route_witness :
  let app := demo_app Pending None in
  let req := demo_request GET ["vms"; "vm-1"] "root"
               (<["fields" := "id"]> (<["ndjson" := ""]> ∅)) ∅ in
  method_ req = GET
  ∧ path req = ["vms"; "vm-1"]
  ∧ collections !! "vms" = Some vms
  ∧ "vm-1" ≠ EmptyString
  ∧ getObject app "vm-1" (Some (coll_type vms)) = Returns vm1
  ∧ getXapiObject app vm1 = Returns (demo_xapi Pending)
  ∧ handle app (routes app) req no_context
    = ([CallGetObject "vm-1" (Some "VM"); ResJson (JObj vm1)], Done).
Proof.
  intros app req.
  assert (H1 : method_ req = GET) by reflexivity.
  assert (H2 : path req = ["vms"; "vm-1"]) by reflexivity.
  assert (H3 : collections !! "vms" = Some vms) by (vm_compute; reflexivity).
  assert (H4 : "vm-1" ≠ EmptyString) by discriminate.
  assert (H5 : getObject app "vm-1" (Some (coll_type vms)) = Returns vm1)
    by (vm_compute; reflexivity).
  assert (H6 : getXapiObject app vm1 = Returns (demo_xapi Pending)) by reflexivity.
  repeat (split; [assumption|]).
  exact (get_one_route app req "vms" "vm-1" vms vm1 (demo_xapi Pending)
           H1 H2 H3 H4 H5 H6).
Defined.

(** X6: [PATCH /:collection/:object] on a resource that resolves calls the
    setter of [name_description] and then that of [name_label], each if
    and only if the body gives it a value that is not [undefined] ([null]
    is passed on), ignores every other name of the body, and answers
    200. *)
Theorem patch_route (app : App) (req : request) (cid o : string)
    (c : collection) (obj : object) (x : xapiObject) (b : object) :
  method_ req = PATCH →
  path req = [cid; o] →
  collections !! cid = Some c →
  o ≠ EmptyString →
  getObject app o (Some (coll_type c)) = Returns obj →
  getXapiObject app obj = Returns x →
  body req = Returns b →
  handle app (routes app) req no_context
  = (CallGetObject o (Some (coll_type c))
     :: flat_map (λ key, match prop b key with
                         | JUndefined => []
                         | value => [CallSet key value]
                         end) ["name_description"; "name_label"]
     ++ [ResSendStatus 200], Done).
Proof.
  intros Hm Hp Hc Ho Hget Hxapi Hb.
  unfold routes.
  do 3 rewrite handle_skip by (left; rewrite Hm; reflexivity).
  rewrite (handle_run app patchLayer _ req no_context
             [("collection", cid); ("object", o)]
             [CallGetObject o (Some (coll_type c))]
             {| collection_ := Some (Descriptor c); xoObject := Some obj;
                xapiObject_ := Some x |}).
  - cbn [patchLayer layer_handle]. by rewrite (patchOne_trace req _ x b).
  - rewrite Hm. reflexivity.
  - rewrite Hp. cbn [patchLayer layer_match match_collection_object from_option].
    rewrite (collections_nonempty cid c Hc).
    apply String.eqb_neq in Ho. unfold nonempty. by rewrite Ho.
  - by apply process_params_resolved.
Qed.

Lemma patch_route_witness :
  let app := demo_app Pending None in
  let b : object :=
    <["name_label" := JNull]> (<["power_state" := JStr "Halted"]> ∅) in
  let req := demo_request PATCH ["vms"; "vm-1"] "root" ∅ b in
  method_ req = PATCH
  ∧ path req = ["vms"; "vm-1"]
  ∧ collections !! "vms" = Some vms
  ∧ "vm-1" ≠ EmptyString
  ∧ getObject app "vm-1" (Some (coll_type vms)) = Returns vm1
  ∧ getXapiObject app vm1 = Returns (demo_xapi Pending)
  ∧ body req = Returns b
  ∧ handle app (routes app) req no_context
    = ([CallGetObject "vm-1" (Some "VM"); CallSet "name_label" JNull;
        ResSendStatus 200], Done).
Proof.
  intros app b req.
  assert (H1 : method_ req = PATCH) by reflexivity.
  assert (H2 : path req = ["vms"; "vm-1"]) by reflexivity.
  assert (H3 : collections !! "vms" = Some vms) by (vm_compute; reflexivity).
  assert (H4 : "vm-1" ≠ EmptyString) by discriminate.
  assert (H5 : getObject app "vm-1" (Some (coll_type vms)) = Returns vm1)
    by (vm_compute; reflexivity).
  assert (H6 : getXapiObject app vm1 = Returns (demo_xapi Pending)) by reflexivity.
  assert (H7 : body req = Returns b) by reflexivity.
  repeat (split; [assumption|]).
  exact (patch_route app req "vms" "vm-1" vms vm1 (demo_xapi Pending) b
           H1 H2 H3 H4 H5 H6 H7).
Defined.

(** X7: the [DELETE] handler answers 200 only once [$destroy] has
    succeeded: a rejection goes to [next(error)] with no status sent, and
    while the call is not settled there is no answer. *)
Theorem deleteOne_waits (ctx : context) (x : xapiObject) :
  xapiObject_ ctx = Some x →
  wrap (deleteOne ctx)
  = match _destroy x with
    | Fulfilled _ => ([CallDestroy; ResSendStatus 200], Done)
    | Rejected e => ([CallDestroy], NextError e)
    | Pending => ([CallDestroy], Stalled)
    end.
Proof.
  intros Hx. unfold deleteOne, defined. rewrite Hx.
  rewrite (bind_normal _ _ x) by done. rewrite emit_bind.
  by destruct (_destroy x) as [[]| |].
Qed.

Lemma deleteOne_waits_witness :
  let x := demo_xapi_failing (Error "VDI in use") in
  let ctx := {| collection_ := None; xoObject := None; xapiObject_ := Some x |} in
  xapiObject_ ctx = Some x
  ∧ wrap (deleteOne ctx) = ([CallDestroy], NextError (Error "VDI in use")).
Proof.
  intros x ctx.
  assert (H1 : xapiObject_ ctx = Some x) by reflexivity.
  split; [assumption|].
  exact (deleteOne_waits ctx x H1).
Defined.

(** X8: when the backend refuses to open the stream of an export, nothing
    is written to the response, neither head nor body, and the error goes
    to [next(error)]. *)
Theorem export_refused_writes_nothing (req : request) (ctx : context) (ps : params)
    (x : xapiObject) (e : exn) :
  xapiObject_ ctx = Some x →
  (∀ format, param ps "format" = Some format →
             _exportContent x format = Rejected e →
             wrap (exportVdi ctx ps) = ([CallExportContent format], NextError e)
             ∧ response_status (wrap (exportVdi ctx ps)).1 = None)
  ∧ (_export x (query req !! "compress") = Rejected e →
     wrap (exportVm req ctx) = ([CallExport (query req !! "compress")], NextError e)
     ∧ response_status (wrap (exportVm req ctx)).1 = None).
Proof.
  intros Hx. split.
  - intros format Hf He.
    assert (wrap (exportVdi ctx ps) = ([CallExportContent format], NextError e)) as ->;
      [|done].
    unfold exportVdi, defined. rewrite Hx, Hf.
    rewrite (bind_normal _ _ x) by done. rewrite (bind_normal _ _ format) by done.
    by rewrite emit_bind, He.
  - intros He.
    assert (wrap (exportVm req ctx)
            = ([CallExport (query req !! "compress")], NextError e)) as ->; [|done].
    unfold exportVm, defined. rewrite Hx.
    rewrite (bind_normal _ _ x) by done. by rewrite emit_bind, He.
Qed.

Lemma export_refused_writes_nothing_witness :
  let x := demo_xapi_failing (Error "SR unplugged") in
  let ctx := {| collection_ := None; xoObject := None; xapiObject_ := Some x |} in
  let req := demo_request GET ["vms"; "vm-1.xva"] "root" ∅ ∅ in
  xapiObject_ ctx = Some x
  ∧ _export x (query req !! "compress") = Rejected (Error "SR unplugged")
  ∧ wrap (exportVm req ctx) = ([CallExport None], NextError (Error "SR unplugged"))
  ∧ response_status (wrap (exportVm req ctx)).1 = None.
Proof.
  intros x ctx req.
  assert (H1 : xapiObject_ ctx = Some x) by reflexivity.
  assert (H2 : _export x (query req !! "compress") = Rejected (Error "SR unplugged"))
    by reflexivity.
  repeat (split; [assumption|]).
  exact (proj2 (export_refused_writes_nothing req ctx [] x (Error "SR unplugged") H1) H2).
Defined.

(** ** The import route *)

Lemma lower_in_one (s t : string) : one_of [t] s = true ↔ lower s = t.
Proof.
  rewrite one_of_elem. split.
  - intros [->|H]%elem_of_cons; [done|]. by apply elem_of_nil in H.
  - intros ->. apply elem_of_cons. by left.
Qed.

Lemma match_srs_vdis_spec (segments : list string) (ps : params) :
  match_srs_vdis segments = Some ps
  ↔ ∃ a o b, segments = [a; o; b] ∧ lower a = "srs" ∧ o ≠ EmptyString
             ∧ lower b = "vdis" ∧ ps = [("object", o)].
Proof.
  unfold match_srs_vdis. split.
  - destruct segments as [|a [|o [|b [|]]]]; try done.
    destruct (one_of ["srs"] a) eqn:Ha; [|done].
    destruct (nonempty o) eqn:Ho; [|done].
    destruct (one_of ["vdis"] b) eqn:Hb; [|done].
    intros [= <-]. exists a, o, b.
    apply lower_in_one in Ha. apply lower_in_one in Hb.
    unfold nonempty in Ho. apply negb_true_iff, String.eqb_neq in Ho. done.
  - intros (a & o & b & -> & Ha & Ho & Hb & ->).
    apply lower_in_one in Ha. apply lower_in_one in Hb. rewrite Ha, Hb.
    apply String.eqb_neq in Ho. unfold nonempty. by rewrite Ho.
Qed.

(** X9: a [POST] never reaches the import handler: the route
    [/srs/:object/vdis] has no [collection] parameter, so that the callback
    of [object] reads [type] of an undefined [req.collection] and the
    exception goes to [next(error)]; on any other path no route takes the
    request.  Either way nothing is asked of the backend and nothing is
    sent. *)
Theorem import_never_runs (app : App) (req : request) :
  method_ req = POST →
  let r := handle app (routes app) req no_context in
  r.1 = []
  ∧ (r.2 = Next ∨ r.2 = NextError (TypeError "req.collection is undefined"))
  ∧ (r.2 = NextError (TypeError "req.collection is undefined")
     ↔ ∃ a o b, path req = [a; o; b] ∧ lower a = "srs" ∧ o ≠ EmptyString
                ∧ lower b = "vdis").
Proof.
  intros Hm r. subst r. unfold routes.
  do 4 rewrite handle_skip by (left; rewrite Hm; reflexivity).
  destruct (match_srs_vdis (path req)) as [ps|] eqn:Hps.
  - pose proof Hps as (a & o & b & Hp & Ha & Ho & Hb & ->)%match_srs_vdis_spec.
    rewrite (handle_error app (importLayer app) _ req no_context [("object", o)] []
               no_context (TypeError "req.collection is undefined"));
      [|by rewrite Hm|exact Hps|reflexivity].
    split; [done|]. split; [by right|]. split; [|done].
    intros _. by exists a, o, b.
  - rewrite handle_skip by (right; exact Hps).
    do 3 rewrite handle_skip by (left; rewrite Hm; reflexivity).
    split; [done|]. split; [by left|]. split; [done|].
    intros (a & o & b & Hp & Ha & Ho & Hb).
    assert (match_srs_vdis (path req) = Some [("object", o)]) as Hs
      by (apply match_srs_vdis_spec; by exists a, o, b).
    congruence.
Qed.

Lemma import_never_runs_witness :
  let app := demo_app Pending None in
  let req := demo_request POST ["SRs"; "sr-1"; "vdis"] "root" (<["raw" := ""]> ∅) ∅ in
  method_ req = POST
  ∧ (handle app (routes app) req no_context).1 = []
  ∧ (handle app (routes app) req no_context).2
    = NextError (TypeError "req.collection is undefined").
Proof.
  intros app req.
  assert (H1 : method_ req = POST) by reflexivity.
  split; [exact H1|].
  destruct (import_never_runs app req H1) as (Ht & _ & Hd).
  split; [exact Ht|].
  apply Hd. exists "SRs", "sr-1", "vdis". repeat split. discriminate.
Defined.

(** ** What a request can cause *)













(** ** The patterns of the export routes *)

Lemma substring_empty (a m : nat) : String.substring a m EmptyString = EmptyString.
Proof. by destruct a, m. Qed.

Lemma substring_split (s : string) (a i j : nat) :
  String.substring a (i + j) s
  = String.substring a i s +:+ String.substring (a + i) j s.
Proof.
  revert a i. induction s as [|c s IH]; intros a i.
  - by rewrite !substring_empty.
  - destruct a as [|a].
    + destruct i as [|i]; [done|].
      change (String c (String.substring 0 (i + j) s)
              = String c (String.substring 0 i s +:+ String.substring i j s)).
      f_equal. apply (IH 0).
    + simpl. apply IH.
Qed.

Lemma length_substring (s : string) (a m : nat) :
  a + m ≤ String.length s → String.length (String.substring a m s) = m.
Proof.
  revert a m. induction s as [|c s IH]; intros a m H; cbn in H.
  - assert (a = 0) as -> by lia. by assert (m = 0) as -> by lia.
  - destruct a as [|a].
    + destruct m as [|m]; [done|]. cbn. f_equal. apply IH. lia.
    + cbn. apply IH. lia.
Qed.

Lemma length_lower (s : string) : String.length (lower s) = String.length s.
Proof. induction s as [|c s IH]; [done|]. cbn. by f_equal. Qed.

(** A segment splits into an object and an extension of [n] characters
    exactly when it is a non-empty object, a dot and such an extension:
    the object is all that stands before the last dot-and-extension, dots
    included. *)
Lemma split_ext_spec (n : nat) (s o e : string) :
  split_ext n s = Some (o, e)
  ↔ s = o +:+ "." +:+ e ∧ o ≠ EmptyString ∧ String.length e = n.
Proof.
  unfold split_ext. split.
  - destruct (n + 2 <=? String.length s)%nat eqn:Hlen; [|done].
    apply Nat.leb_le in Hlen. cbn [andb].
    destruct (String.eqb _ ".") eqn:Hdot; [|done]. apply String.eqb_eq in Hdot.
    intros [= <- <-].
    set (k := String.length s - n - 1) in *.
    assert (String.length s = k + (1 + n)) as Hs by (unfold k; lia).
    replace (String.length s - n) with (k + 1) by lia.
    split; [|split].
    + pose proof (substring_split s 0 k (1 + n)) as H1.
      pose proof (substring_split s k 1 n) as H2.
      change (0 + k) with k in H1. rewrite H2, Hdot, <- Hs, substring_all in H1.
      exact H1.
    + intros Ho. apply (f_equal String.length) in Ho.
      rewrite length_substring in Ho by lia. cbn in Ho. unfold k in Ho. lia.
    + apply length_substring. lia.
  - intros (-> & Ho & He).
    rewrite length_app. change ("." +:+ e) with (String "." e).
    cbn [String.length]. rewrite He.
    assert (0 < String.length o) by (destruct o; [done|cbn; lia]).
    replace (n + 2 <=? String.length o + S n)%nat with true
      by (symmetry; apply Nat.leb_le; lia).
    replace (String.length o + S n - n - 1) with (String.length o + 0) by lia.
    replace (String.length o + S n - n) with (String.length o + 1) by lia.
    rewrite !substring_skip.
    assert (String.substring 0 1 (String "." e) = ".") as -> by (by destruct e).
    assert (String.substring 1 n (String "." e) = e) as ->.
    { change (String.substring 0 n e = e). rewrite <- He. apply substring_all. }
    by rewrite Nat.add_0_r, substring_prefix.
Qed.

Lemma nonempty_spec (s : string) : nonempty s = true ↔ s ≠ EmptyString.
Proof. unfold nonempty. by rewrite negb_true_iff, String.eqb_neq. Qed.

Lemma match_whole_segment (c o e : string) :
  c ≠ EmptyString → o ≠ EmptyString →
  match_collection_object None [c; o +:+ "." +:+ e]
  = Some [("collection", c); ("object", o +:+ "." +:+ e)].
Proof.
  intros Hc Ho. unfold match_collection_object. cbn [from_option].
  rewrite (proj2 (nonempty_spec c) Hc).
  by assert (nonempty (o +:+ "." +:+ e) = true) as -> by (by destruct o).
Qed.

(** X11: what the two export routes match: two segments, of which the
    first is, whatever its case, one of the collections of the pattern,
    and the second a non-empty object, a dot and, whatever its case, one
    of the formats ([xva] for a machine); the parameters are the segment
    and the two parts as they are written.  Every such path also matches
    [/:collection/:object], which is registered before and takes the whole
    second segment for the object. *)
Theorem export_patterns (segments : list string) (ps : params) :
  (match_export_vdi segments = Some ps
   ↔ ∃ c o format,
       segments = [c; o +:+ "." +:+ format] ∧ o ≠ EmptyString
       ∧ lower c ∈ ["vdis"; "vdi-snapshots"] ∧ lower format ∈ ["vhd"; "raw"]
       ∧ ps = [("collection", c); ("object", o); ("format", format)])
  ∧ (match_export_vm segments = Some ps
     ↔ ∃ c o ext,
         segments = [c; o +:+ "." +:+ ext] ∧ o ≠ EmptyString
         ∧ lower c ∈ ["vms"; "vm-snapshots"; "vm-templates"] ∧ lower ext = "xva"
         ∧ ps = [("collection", c); ("object", o)])
  ∧ (match_export_vdi segments = Some ps ∨ match_export_vm segments = Some ps →
     ∃ c s, segments = [c; s]
            ∧ match_collection_object None segments
              = Some [("collection", c); ("object", s)]).
Proof.
  assert (match_export_vdi segments = Some ps
          ↔ ∃ c o format,
              segments = [c; o +:+ "." +:+ format] ∧ o ≠ EmptyString
              ∧ lower c ∈ ["vdis"; "vdi-snapshots"] ∧ lower format ∈ ["vhd"; "raw"]
              ∧ ps = [("collection", c); ("object", o); ("format", format)]) as Hvdi.
  { unfold match_export_vdi. split.
    - destruct segments as [|c [|s [|]]]; try done.
      destruct (split_ext 3 s) as [[o format]|] eqn:Hs; [|done].
      destruct (one_of _ c) eqn:Hc; [|done].
      destruct (one_of _ format) eqn:Hf; [|done].
      intros [= <-]. apply split_ext_spec in Hs as (-> & Ho & _).
      apply one_of_elem in Hc. apply one_of_elem in Hf. by exists c, o, format.
    - intros (c & o & format & -> & Ho & Hc & Hf & ->).
      assert (String.length format = 3) as Hlen.
      { rewrite <- length_lower.
        repeat (apply elem_of_cons in Hf as [->|Hf]; [reflexivity|]).
        by apply elem_of_nil in Hf. }
      rewrite (proj2 (split_ext_spec 3 _ o format)) by done.
      by rewrite (proj2 (one_of_elem _ _) Hc), (proj2 (one_of_elem _ _) Hf). }
  assert (match_export_vm segments = Some ps
          ↔ ∃ c o ext,
              segments = [c; o +:+ "." +:+ ext] ∧ o ≠ EmptyString
              ∧ lower c ∈ ["vms"; "vm-snapshots"; "vm-templates"] ∧ lower ext = "xva"
              ∧ ps = [("collection", c); ("object", o)]) as Hvm.
  { unfold match_export_vm. split.
    - destruct segments as [|c [|s [|]]]; try done.
      destruct (split_ext 3 s) as [[o ext]|] eqn:Hs; [|done].
      destruct (one_of _ c) eqn:Hc; [|done].
      destruct (one_of _ ext) eqn:Hf; [|done].
      intros [= <-]. apply split_ext_spec in Hs as (-> & Ho & _).
      apply one_of_elem in Hc. apply lower_in_one in Hf. by exists c, o, ext.
    - intros (c & o & ext & -> & Ho & Hc & Hf & ->).
      assert (String.length ext = 3) as Hlen by (by rewrite <- length_lower, Hf).
      rewrite (proj2 (split_ext_spec 3 _ o ext)) by done.
      by rewrite (proj2 (one_of_elem _ _) Hc), (proj2 (lower_in_one _ _) Hf). }
  split; [exact Hvdi|]. split; [exact Hvm|].
  intros [H|H].
  - apply Hvdi in H as (c & o & format & -> & Ho & Hc & _).
    exists c, (o +:+ "." +:+ format). split; [done|].
    apply match_whole_segment; [|done].
    intros ->. cbn in Hc.
    repeat (apply elem_of_cons in Hc as [Hc|Hc]; [discriminate|]).
    by apply elem_of_nil in Hc.
  - apply Hvm in H as (c & o & ext & -> & Ho & Hc & _).
    exists c, (o +:+ "." +:+ ext). split; [done|].
    apply match_whole_segment; [|done].
    intros ->. cbn in Hc.
    repeat (apply elem_of_cons in Hc as [Hc|Hc]; [discriminate|]).
    by apply elem_of_nil in Hc.
Qed.

Lemma export_patterns_witness :
  match_export_vdi ["VDIs"; "disk.v2.vhd"]
  = Some [("collection", "VDIs"); ("object", "disk.v2"); ("format", "vhd")]
  ∧ match_collection_object None ["VDIs"; "disk.v2.vhd"]
    = Some [("collection", "VDIs"); ("object", "disk.v2.vhd")].
Proof.
  assert (H1 : match_export_vdi ["VDIs"; "disk.v2.vhd"]
               = Some [("collection", "VDIs"); ("object", "disk.v2"); ("format", "vhd")])
    by reflexivity.
  split; [exact H1|].
  destruct (proj2 (proj2 (export_patterns ["VDIs"; "disk.v2.vhd"] _)) (or_introl H1))
    as (c & s & Heq & Hshadow).
  injection Heq as <- <-. exact Hshadow.
Defined.

(** ** The exports through the router *)

Lemma handle_export_vdi_witness :
  let app := demo_app Pending None in
  let req := demo_request GET ["vdis"; "vdi-1.raw"] "root" ∅ ∅ in
  let miss := NoSuchObject "vdi-1.raw" (Some "VDI") in
  method_ req = GET
  ∧ path req = ["vdis"; "vdi-1" +:+ "." +:+ "raw"]
  ∧ "vdis" ∈ ["vdis"; "vdi-snapshots"]
  ∧ "raw" ∈ ["vhd"; "raw"]
  ∧ collections !! "vdis" = Some (collection_entry "VDI").2
  ∧ getObject app "vdi-1.raw" (Some "VDI") = Throws miss
  ∧ noSuchObject_is miss "vdi-1.raw" (Some "VDI") = true
  ∧ getObject app "vdi-1" (Some "VDI") = Returns vdi1
  ∧ handle app (routes app) req no_context
    = ([CallGetObject "vdi-1.raw" (Some "VDI"); CallGetObject "vdi-1" (Some "VDI");
        CallExportContent "raw";
        ResWriteHead 206 ""
          (<["content-disposition" := "attachment"]> (headers demo_stream));
        ResWrite (Bytes "ab"); ResWrite (Bytes "cd"); ResEnd None], Done).
Proof.
  intros app req miss.
  assert (H1 : method_ req = GET) by reflexivity.
  assert (H2 : path req = ["vdis"; "vdi-1" +:+ "." +:+ "raw"]) by reflexivity.
  assert (H3 : "vdis" ∈ ["vdis"; "vdi-snapshots"]) by (apply elem_of_cons; by left).
  assert (H4 : "raw" ∈ ["vhd"; "raw"])
    by (apply elem_of_cons; right; apply elem_of_cons; by left).
  assert (H5 : collections !! "vdis" = Some (collection_entry "VDI").2)
    by (vm_compute; reflexivity).
  assert (H6 : getObject app "vdi-1.raw" (Some "VDI") = Throws miss)
    by (vm_compute; reflexivity).
  assert (H7 : noSuchObject_is miss "vdi-1.raw" (Some "VDI") = true)
    by (vm_compute; reflexivity).
  assert (H8 : getObject app "vdi-1" (Some "VDI") = Returns vdi1)
    by (vm_compute; reflexivity).
  repeat (split; [assumption|]).
  refine (handle_export_vdi app req "vdis" "vdi-1" "raw" (collection_entry "VDI").2
            miss vdi1 (demo_xapi Pending) demo_stream H1 H2 H3 H4 _ H5 H6 H7 H8
            eq_refl eq_refl).
  discriminate.
Defined.

(** X13: an export of a machine through the router.  The route
    [/:collection/:object] matches first and looks the whole segment up,
    extension included; when the backend has no such object the router
    moves on, the route of the disk exports does not match, and the route
    of the machine exports resolves the object without [.xva], asks for
    the export with the [compress] of the query, and sends the stream. *)
Theorem export_vm_route (app : App) (req : request) (cid o : string)
    (c : collection) (e : exn) (obj : object) (x : xapiObject) (s : stream) :
  method_ req = GET →
  path req = [cid; o +:+ ".xva"] →
  cid ∈ ["vms"; "vm-snapshots"; "vm-templates"] →
  o ≠ EmptyString →
  collections !! cid = Some c →
  let type := Some (coll_type c) in
  getObject app (o +:+ ".xva") type = Throws e →
  noSuchObject_is e (o +:+ ".xva") type = true →
  getObject app o type = Returns obj →
  getXapiObject app obj = Returns x →
  _export x (query req !! "compress") = Fulfilled s →
  handle app (routes app) req no_context
  = (CallGetObject (o +:+ ".xva") type
     :: CallGetObject o type
     :: CallExport (query req !! "compress")
     :: ResWriteHead (statusCode s) (default EmptyString (statusMessage s))
          (<["content-disposition" := "attachment"]> (headers s))
     :: map (λ c, ResWrite (Bytes c)) (chunks s)
     ++ match failure s with None => [ResEnd None] | Some _ => [] end,
     match failure s with None => Done | Some e => NextError e end).
Proof.
  intros Hm Hp Hcid Ho Hc type Hmiss Hno Hget Hxapi Hexport.
  assert (Hsplit : split_ext 3 (o +:+ ".xva") = Some (o, "xva"))
    by (by apply (split_ext_spec 3 (o +:+ ".xva") o "xva")).
  assert (Hcol : cid ≠ EmptyString
                 ∧ one_of ["vms"; "vm-snapshots"; "vm-templates"] cid = true
                 ∧ one_of ["vdis"; "vdi-snapshots"] cid = false).
  { repeat (apply elem_of_cons in Hcid as [->|Hcid]; [done|]).
    by apply elem_of_nil in Hcid. }
  destruct Hcol as (Hne & Hone & Hnot).
  pose (found := {| collection_ := Some (Descriptor c); xoObject := Some obj;
                    xapiObject_ := Some x |}).
  pose (missed := {| collection_ := Some (Descriptor c); xoObject := None;
                     xapiObject_ := None |}).
  unfold routes.
  rewrite handle_skip by (right; rewrite Hp; unfold rootLayer, layer_match, match_root;
                          by destruct cid).
  rewrite handle_skip by (right; rewrite Hp; reflexivity).
  rewrite (handle_next_route app getLayer _ req no_context
             [("collection", cid); ("object", o +:+ ".xva")]
             [CallGetObject (o +:+ ".xva") type] missed); cycle 1.
  { rewrite Hm. reflexivity. }
  { rewrite Hp. exact (match_whole_segment cid o "xva" Hne Ho). }
  { rewrite (process_params_object _ _ _ _ _ _ Hc).
    rewrite (param_object_miss _ _ (Descriptor c) _ e) by done.
    cbn [fst snd type_of]. unfold object_error. fold type. by rewrite Hno. }
  do 3 rewrite handle_skip by (left; rewrite Hm; reflexivity).
  rewrite handle_skip; cycle 1.
  { right. rewrite Hp. cbn [exportVdiLayer layer_match match_export_vdi].
    by rewrite Hsplit, Hnot. }
  rewrite (handle_run app exportVmLayer _ req missed
             [("collection", cid); ("object", o)] [CallGetObject o type] found); cycle 1.
  { rewrite Hm. reflexivity. }
  { rewrite Hp. cbn [exportVmLayer layer_match match_export_vm].
    by rewrite Hsplit, Hone. }
  { rewrite (process_params_object _ _ _ _ _ _ Hc).
    by rewrite (param_object_found _ _ (Descriptor c) _ obj x). }
  cbn [exportVmLayer layer_handle].
  unfold exportVm, defined. cbn [found xapiObject_].
  rewrite (bind_normal _ _ x) by done.
  rewrite emit_bind, Hexport, (bind_normal _ _ s) by done.
  rewrite sendStream_trace. unfold wrap. cbn [fst snd List.app mret handler_ret].
  by destruct (failure s).
Qed.

Lemma export_vm_route_witness :
  let app := demo_app Pending None in
  let req := demo_request GET ["vms"; "vm-1.xva"] "root" (<["compress" := "zstd"]> ∅) ∅ in
  let miss := NoSuchObject "vm-1.xva" (Some "VM") in
  method_ req = GET
  ∧ path req = ["vms"; "vm-1" +:+ ".xva"]
  ∧ "vms" ∈ ["vms"; "vm-snapshots"; "vm-templates"]
  ∧ collections !! "vms" = Some vms
  ∧ getObject app "vm-1.xva" (Some "VM") = Throws miss
  ∧ noSuchObject_is miss "vm-1.xva" (Some "VM") = true
  ∧ getObject app "vm-1" (Some "VM") = Returns vm1
  ∧ query req !! "compress" = Some "zstd"
  ∧ handle app (routes app) req no_context
    = ([CallGetObject "vm-1.xva" (Some "VM"); CallGetObject "vm-1" (Some "VM");
        CallExport (query req !! "compress");
        ResWriteHead 206 ""
          (<["content-disposition" := "attachment"]> (headers demo_stream));
        ResWrite (Bytes "ab"); ResWrite (Bytes "cd"); ResEnd None], Done).
Proof.
  intros app req miss.
  assert (H1 : method_ req = GET) by reflexivity.
  assert (H2 : path req = ["vms"; "vm-1" +:+ ".xva"]) by reflexivity.
  assert (H3 : "vms" ∈ ["vms"; "vm-snapshots"; "vm-templates"])
    by (apply elem_of_cons; by left).
  assert (H4 : collections !! "vms" = Some vms) by (vm_compute; reflexivity).
  assert (H5 : getObject app "vm-1.xva" (Some "VM") = Throws miss)
    by (vm_compute; reflexivity).
  assert (H6 : noSuchObject_is miss "vm-1.xva" (Some "VM") = true)
    by (vm_compute; reflexivity).
  assert (H7 : getObject app "vm-1" (Some "VM") = Returns vm1)
    by (vm_compute; reflexivity).
  assert (H8 : query req !! "compress" = Some "zstd") by (vm_compute; reflexivity).
  repeat (split; [assumption|]).
  refine (export_vm_route app req "vms" "vm-1" vms miss vm1 (demo_xapi Pending)
            demo_stream H1 H2 H3 _ H4 H5 H6 H7 eq_refl eq_refl).
  discriminate.
Defined.

(** ** The parameters, again *)

Lemma routing_miss_witness :
  let app := demo_app Pending None in
  let list := demo_request GET ["Vms"] "root" ∅ ∅ in
  let gone := demo_request DELETE ["vms"; "vm-9"] "root" ∅ ∅ in
  let miss := NoSuchObject "vm-9" (Some "VM") in
  (path list = ["Vms"]
   ∧ collections !! "Vms" = None
   ∧ ("Vms" ∉ Object_prototype)
   ∧ handle app (routes app) list no_context = ([], Next))
  ∧ (layer_match deleteLayer (path gone)
     = Some [("collection", "vms"); ("object", "vm-9")]
     ∧ collections !! "vms" = Some vms
     ∧ getObject app "vm-9" (Some "VM") = Throws miss
     ∧ handle app [deleteLayer] gone no_context
       = ([CallGetObject "vm-9" (Some "VM")], Next)).
Proof.
  intros app list gone miss.
  assert (H1 : path list = ["Vms"]) by reflexivity.
  assert (H2 : collections !! "Vms" = None) by (vm_compute; reflexivity).
  assert (H3 : "Vms" ∉ Object_prototype).
  { intros H. unfold Object_prototype in H.
    repeat (apply elem_of_cons in H as [H|H]; [discriminate|]).
    by apply elem_of_nil in H. }
  assert (H4 : layer_match deleteLayer (path gone)
               = Some [("collection", "vms"); ("object", "vm-9")]) by reflexivity.
  assert (H5 : collections !! "vms" = Some vms) by (vm_compute; reflexivity).
  assert (H6 : getObject app "vm-9" (Some "VM") = Throws miss)
    by (vm_compute; reflexivity).
  split.
  - repeat (split; [assumption|]).
    refine (proj1 (routing_miss app list no_context) "Vms" [] H1 _ _ H2 H3).
    + discriminate.
    + cbn. lia.
  - repeat (split; [assumption|]).
    exact (proj1 (proj2 (routing_miss app gone no_context) deleteLayer [] "vms" vms
                    "vm-9" [] miss eq_refl H4 H5) H6).
Defined.

(** ** The names of [fields] *)




(** ** [split] *)

Lemma split_cons (sep : ascii) (s : string) : ∃ w ws, split sep s = w :: ws.
Proof.
  destruct s as [|c r]; cbn [split]; [by eexists _, _|].
  destruct (Ascii.eqb c sep); [by eexists _, _|].
  destruct (split sep r); by eexists _, _.
Qed.

(** X16: [text.split(sep)] cuts the text at each separator and nowhere
    else: joining the pieces with the separator gives the text back, no
    piece holds the separator, and there is always at least one piece, so
    that an empty [fields] asks for the one name that is the empty
    text. *)
Theorem split_join (sep : ascii) (s : string) :
  String.concat (String sep EmptyString) (split sep s) = s
  ∧ Forall (λ piece, ∀ i, String.get i piece ≠ Some sep) (split sep s)
  ∧ length (split sep s) ≠ 0
  ∧ split sep EmptyString = [EmptyString].
Proof.
  split; [|split; [|split]].
  - induction s as [|c r IH]; [done|]. cbn [split].
    destruct (Ascii.eqb c sep) eqn:Hc.
    + apply Ascii.eqb_eq in Hc as ->.
      destruct (split_cons sep r) as (w & ws & Hr). rewrite Hr in *.
      change (String sep (String.concat (String sep EmptyString) (w :: ws))
              = String sep r).
      by rewrite IH.
    + destruct (split_cons sep r) as (w & ws & Hr). rewrite Hr in *.
      rewrite <- IH. by destruct ws.
  - induction s as [|c r IH]; cbn [split].
    + constructor; [|done]. by intros [|i].
    + destruct (Ascii.eqb c sep) eqn:Hc.
      * constructor; [|done]. by intros [|i].
      * destruct (split_cons sep r) as (w & ws & Hr). rewrite Hr in *.
        apply Forall_cons in IH as [Hw Hws]. constructor; [|done].
        intros [|i]; cbn [String.get].
        -- intros [= ->]. by rewrite Ascii.eqb_refl in Hc.
        -- apply Hw.
  - by destruct (split_cons sep s) as (w & ws & ->).
  - reflexivity.
Qed.

(** ** The RAM usage of the hosts *)

Lemma data_from {H N} (utils : Utils H N) (acc : list (UsageItem N))
    (stats : list (Stat H)) :
  foldl (pushStat utils) acc stats = acc ++ data utils stats.
Proof.
  unfold data. revert acc. induction stats as [|stat stats IH]; intros acc.
  - cbn [foldl]. by rewrite app_nil_r.
  - cbn [foldl]. rewrite IH, (IH (pushStat utils [] stat)).
    unfold pushStat. destruct (stat_stats stat); [|done].
    by rewrite <- app_assoc.
Qed.

Lemma data_cons {H N} (utils : Utils H N) (stat : Stat H) (stats : list (Stat H)) :
  data utils (stat :: stats) = pushStat utils [] stat ++ data utils stats.
Proof. unfold data at 1. cbn [foldl]. apply data_from. Qed.

Lemma data_length_le {H N} (utils : Utils H N) (stats : list (Stat H)) :
  length (data utils stats) ≤ length stats.
Proof.
  induction stats as [|stat stats IH]; [done|].
  rewrite data_cons. unfold pushStat.
  destruct (stat_stats stat); cbn [List.app length]; lia.
Qed.

(** X17: [data] holds one entry for each host whose statistics have been
    fetched, in the order of the hosts, with the id and the name of the
    host, the percentage [parseRamUsage] gives and the badge ["used/total"]
    in the words of [formatSize]; a host without statistics has no entry,
    and nothing else is in [data]. *)
Theorem data_lists_the_fetched_hosts {H N} (utils : Utils H N)
    (stats : list (Stat H)) :
  Forall2 (λ item stat,
             ∃ h, stat_stats stat = Some h
                  ∧ item = {| item_id := stat_id stat;
                              item_label := stat_name stat;
                              item_value := percentUsed (parseRamUsage utils h);
                              badgeLabel :=
                                formatSize utils (used (parseRamUsage utils h))
                                +:+ "/"
                                +:+ formatSize utils (total (parseRamUsage utils h)) |})
    (data utils stats)
    (filter (λ stat, is_Some (stat_stats stat)) stats)
  ∧ length (data utils stats) ≤ length stats.
Proof.
  split; [|apply data_length_le].
  induction stats as [|stat stats IH]; [constructor|].
  rewrite data_cons. unfold pushStat.
  destruct (stat_stats stat) as [h|] eqn:Hs.
  - rewrite filter_cons_True by (by rewrite Hs). cbn [List.app].
    constructor; [|done]. by exists h.
  - rewrite filter_cons_False by (rewrite Hs; by intros [? ?]). done.
Qed.

Lemma data_complete {H N} (utils : Utils H N) (stats : list (Stat H)) :
  length stats = length (data utils stats)
  ↔ Forall (λ stat, is_Some (stat_stats stat)) stats.
Proof.
  induction stats as [|stat stats IH]; [done|].
  pose proof (data_length_le utils stats) as Hle.
  rewrite data_cons, Forall_cons. unfold pushStat.
  destruct (stat_stats stat) as [h|]; cbn [List.app length].
  - rewrite <- IH. split; [intros [= ->]; by split|intros [_ ->]; done].
  - split; [lia|]. by intros [[? ?] _].
Qed.

Lemma statFetched_first {H N} (utils : Utils H N) (stats : list (Stat H)) :
  statFetched utils false stats = true
  ↔ stats ≠ [] ∧ Forall (λ stat, is_Some (stat_stats stat)) stats.
Proof.
  unfold statFetched. cbn [orb]. rewrite andb_true_iff, Nat.ltb_lt, Nat.eqb_eq.
  rewrite data_complete. by destruct stats; cbn [length]; split; intros [? ?]; split;
    try done; try lia.
Qed.

Lemma statFetched_from {H N} (utils : Utils H N) (previous : bool)
    (snapshots : list (list (Stat H))) :
  foldl (statFetched utils) previous snapshots = true
  ↔ previous = true
    ∨ Exists (λ stats, stats ≠ [] ∧ Forall (λ stat, is_Some (stat_stats stat)) stats)
        snapshots.
Proof.
  revert previous. induction snapshots as [|stats snapshots IH]; intros previous.
  - cbn [foldl]. rewrite Exists_nil. tauto.
  - cbn [foldl]. rewrite IH, Exists_cons, <- (statFetched_first utils stats).
    unfold statFetched. cbn [orb]. rewrite orb_true_iff. tauto.
Qed.

(** X18: [statFetched] is a latch.  The first time, it is true exactly
    when there is a host and every host has its statistics; as it reads
    its own value before anything else, once true it stays true: after any
    number of evaluations it is true exactly when the hosts were complete
    at one of them.  [UsageBar] gets [data] from then on and [undefined]
    before, so that it can be given a [data] that lacks hosts, or is
    empty, when the hosts change after the first complete fetch. *)
Theorem statFetched_is_a_latch {H N} (utils : Utils H N)
    (snapshots : list (list (Stat H))) (stats : list (Stat H)) :
  let complete (stats : list (Stat H)) :=
    stats ≠ [] ∧ Forall (λ stat, is_Some (stat_stats stat)) stats in
  (statFetched utils false stats = true ↔ complete stats)
  ∧ statFetched utils true stats = true
  ∧ (statFetched_after utils snapshots = true ↔ Exists complete snapshots)
  ∧ usageBarData utils (statFetched_after utils snapshots) stats
    = (if statFetched_after utils (snapshots ++ [stats])
       then Some (data utils stats) else None)
  ∧ (Exists complete snapshots →
     usageBarData utils (statFetched_after utils snapshots) [] = Some []).
Proof.
  intros complete.
  assert (statFetched_after utils snapshots = true ↔ Exists complete snapshots) as Hafter.
  { unfold statFetched_after. rewrite statFetched_from. split; [|by right].
    by intros [|]. }
  split; [apply statFetched_first|]. split; [done|]. split; [exact Hafter|]. split.
  - unfold usageBarData, statFetched_after. by rewrite foldl_app.
  - intros Hex. apply Hafter in Hex. unfold usageBarData. by rewrite Hex.
Qed.

Lemma statFetched_is_a_latch_witness :
  let complete (stats : list (Stat (nat * nat))) :=
    stats ≠ [] ∧ Forall (λ stat, is_Some (stat_stats stat)) stats in
  let full := [{| stat_id := "h1"; stat_name := "alpha"; stat_stats := Some (2, 8) |}] in
  Exists complete [[]; full; demo_stats]
  ∧ statFetched demo_utils false demo_stats = false
  ∧ usageBarData demo_utils (statFetched_after demo_utils [[]; full; demo_stats]) []
    = Some []
  ∧ usageBarData demo_utils (statFetched_after demo_utils [[]; full]) demo_stats
    = Some (data demo_utils demo_stats)
  ∧ length (data demo_utils demo_stats) = 2.
Proof.
  intros complete full.
  assert (H1 : Exists complete [[]; full; demo_stats]).
  { apply Exists_cons. right. apply Exists_cons. left. split; [discriminate|].
    repeat constructor. by eexists. }
  split; [exact H1|]. split; [reflexivity|].
  split; [|split; [|reflexivity]].
  - exact (proj2 (proj2 (proj2 (proj2
             (statFetched_is_a_latch demo_utils [[]; full; demo_stats] []))))
             H1).
  - reflexivity.
Defined.

(** ** Strict routing *)

Lemma handle_no_match (app : App) (stack : list layer) (req : request) (ctx : context) :
  Forall (λ l, layer_match l (path req) = None) stack →
  handle app stack req ctx = ([], Next).
Proof.
  intros Hstack. induction Hstack as [|l stack Hl _ IH]; [done|].
  rewrite handle_skip by (by right). exact IH.
Qed.

(** X19: the router is strict: a path that ends with a slash, other than
    the root, matches no route, whatever the method; [/vms/] is not
    [/vms], and the request leaves the router with nothing done. *)
Theorem trailing_slash_matches_nothing (app : App) (req : request)
    (segments : list string) (ctx : context) :
  segments ≠ [] →
  path req = segments ++ [EmptyString] →
  handle app (routes app) req ctx = ([], Next).
Proof.
  intros Hne Hp. apply handle_no_match. rewrite Hp. unfold routes.
  destruct segments as [|a [|b [|c rest]]]; [done|..];
    repeat apply Forall_cons_2; try apply Forall_nil;
    cbn [layer_match rootLayer listLayer getLayer patchLayer importLayer deleteLayer
           exportVdiLayer exportVmLayer List.app];
    try reflexivity.
  - by destruct a.
  - unfold match_collection_object. cbn [nonempty String.eqb negb andb].
    by rewrite andb_false_r.
  - unfold match_collection_object. cbn [nonempty String.eqb negb andb].
    by rewrite andb_false_r.
  - unfold match_collection_object. cbn [nonempty String.eqb negb andb].
    by rewrite andb_false_r.
  - by destruct a.
  - unfold match_srs_vdis. by rewrite andb_false_r.
  - by destruct a.
  - unfold match_srs_vdis. by destruct rest.
Qed.

Lemma trailing_slash_matches_nothing_witness :
  let app := demo_app Pending None in
  let req := demo_request GET ["vms"; ""] "root" ∅ ∅ in
  ["vms"] ≠ []
  ∧ path req = ["vms"] ++ [EmptyString]
  ∧ handle app (routes app) req no_context = ([], Next).
Proof.
  intros app req.
  assert (H1 : ["vms"] ≠ ([] : list string)) by discriminate.
  assert (H2 : path req = ["vms"] ++ [EmptyString]) by reflexivity.
  repeat (split; [assumption|]).
  exact (trailing_slash_matches_nothing app req ["vms"] no_context H1 H2).
Defined.
